(** * argocd-manager: an interactive menu around the [argocd] and [kubectl]
    command line tools (src/main.py).

    The program is a sequence of console prompts, subprocess invocations and
    console prints.  It is embedded here as a state-and-exception monad over
    a [world] that holds the pending console input, the number of
    subprocesses started so far and the trace of observable events.  The
    operating system (environment variables, the outcome of each subprocess)
    and the JSON decoder of the Python standard library are parameters of
    the development. *)

From Stdlib Require Import String Ascii ZArith Lia.
From stdpp Require Import base option list strings gmap sorting pretty.

Local Open Scope string_scope.
Local Open Scope list_scope.

(** ** Python strings

    A [str] is modelled by a [string] whose characters are the code points
    below 256. *)

Module Py.

(** [str.isspace] on one character: TAB..CR, FS..US, SPACE, NEL, NBSP. *)
Definition isspace (c : ascii) : bool :=
  let n := nat_of_ascii c in
  ((9 <=? n) && (n <=? 13) || (28 <=? n) && (n <=? 32)
   || (n =? 133) || (n =? 160))%nat.

Fixpoint lstrip (s : string) : string :=
  match s with
  | EmptyString => EmptyString
  | String c r => if isspace c then lstrip r else s
  end.

Fixpoint rstrip (s : string) : string :=
  match s with
  | EmptyString => EmptyString
  | String c r =>
      match rstrip r with
      | EmptyString => if isspace c then EmptyString else String c EmptyString
      | r' => String c r'
      end
  end.

(** [s.strip()] *)
Definition strip (s : string) : string := rstrip (lstrip s).

(** [str.lower] on one character: A..Z and the Latin-1 capitals. *)
Definition lower_char (c : ascii) : ascii :=
  let n := nat_of_ascii c in
  if ((65 <=? n) && (n <=? 90)
      || (192 <=? n) && (n <=? 222) && negb (n =? 215))%nat
  then ascii_of_nat (n + 32) else c.

Fixpoint lower (s : string) : string :=
  match s with
  | EmptyString => EmptyString
  | String c r => String (lower_char c) (lower r)
  end.

(** [s.split(sep)] for a one-character separator: the fragments between the
    separators, in order; never the empty list. *)
Fixpoint split (sep : ascii) (s : string) : list string :=
  match s with
  | EmptyString => [EmptyString]
  | String c r =>
      if Ascii.eqb c sep then EmptyString :: split sep r
      else match split sep r with
           | [] => [String c EmptyString]
           | f :: fs => String c f :: fs
           end
  end.

(** [sub in s] *)
Fixpoint contains (sub s : string) : bool :=
  String.prefix sub s ||
  match s with
  | EmptyString => false
  | String _ r => contains sub r
  end.

(** The line feed written [\n] in the source. *)
Definition NL : string := String "010" EmptyString.

(** Truth value of a string: [bool(s)]. *)
Definition truthy (s : string) : bool :=
  match s with EmptyString => false | _ => true end.

(** [x in (a, b, c)] *)
Definition str_in (x : string) (l : list string) : bool :=
  existsb (String.eqb x) l.

(** [str(i)] for a natural number. *)
Definition str (n : nat) : string := pretty n.

(** [str(x)] where [x] may be [None], as in an f-string. *)
Definition str_opt (o : option string) : string :=
  match o with Some s => s | None => "None" end.

Definition digit_val (c : ascii) : option nat :=
  let n := nat_of_ascii c in
  if ((48 <=? n) && (n <=? 57))%nat then Some (n - 48) else None.

(** Digits of an integer literal, single underscores allowed between
    digits.  [prev] tells whether the previous character was a digit. *)
Fixpoint int_digits (s : string) (prev : bool) (acc : nat) : option nat :=
  match s with
  | EmptyString => if prev then Some acc else None
  | String c r =>
      match digit_val c with
      | Some d => int_digits r true (10 * acc + d)
      | None =>
          if Ascii.eqb c "_" && prev then
            match r with
            | EmptyString => None
            | String c' _ =>
                match digit_val c' with
                | Some _ => int_digits r false acc
                | None => None
                end
            end
          else None
      end
  end.

(** [int(s)]: surrounding whitespace, an optional sign, decimal digits;
    [None] stands for [ValueError]. *)
Definition int (s : string) : option Z :=
  match strip s with
  | String "-" r => Z.opp <$> (Z.of_nat <$> int_digits r false 0)
  | String "+" r => Z.of_nat <$> int_digits r false 0
  | r => Z.of_nat <$> int_digits r false 0
  end.

(** [range(a, b)] *)
Definition range (a b : nat) : list nat := seq a (b - a).

(** Order of [str] values: lexicographic on code points. *)
Definition str_le (a b : string) : Prop := String.leb a b = true.

#[export] Instance str_le_dec : RelDecision str_le.
Proof. intros a b. unfold str_le. apply _. Defined.

(** [sorted(l)] on strings. *)
Definition sorted (l : list string) : list string := merge_sort str_le l.

End Py.

(** ** JSON values, as produced by [json.loads]

    Of a float the program observes only whether it is zero. *)

#[warnings="-register-all"]
Inductive JSON : Type :=
| JNull
| JBool (b : bool)
| JInt (z : Z)
| JFloat (nonzero : bool)
| JString (s : string)
| JArray (l : list JSON)
| JObject (m : gmap string JSON).

(** ** The world the program runs in *)

(** The outcome of starting a subprocess: the executable is not on the path,
    or it ran and exited. *)
Inductive proc_outcome :=
| NotFound
| Exited (returncode : Z) (stdout stderr : string).

(** [subprocess.CompletedProcess]: without [capture_output] the two streams
    are [None]. *)
Record CompletedProcess := {
  returncode : Z;
  stdout : option string;
  stderr : option string;
}.

Inductive exn :=
| FileNotFoundError
| CalledProcessError (rc : Z) (cmd : list string) (output err : option string)
| JSONDecodeError
| AttributeError
| TypeError
| NotRenderableError
| ValueError
| IndexError
| KeyError
| EOFError
| KeyboardInterrupt
| SystemExit (code : Z).

(** [isinstance(e, Exception)]: [KeyboardInterrupt] and [SystemExit] derive
    from [BaseException] only. *)
Definition is_Exception (e : exn) : bool :=
  match e with
  | KeyboardInterrupt | SystemExit _ => false
  | _ => true
  end.

(** One line typed by the user, or an interrupt sent while the program waits
    for input. *)
Inductive input :=
| Line (s : string)
| CtrlC.

Inductive level := INFO | ERROR.

(** What an observer sees, in order. *)
Inductive event :=
| Print (s : string)
| PrintTable (title : option string) (headers : list string) (rows : list (list string))
| Asked (prompt : string) (default : option string)
        (choices : option (list string)) (password : bool)
| AskedConfirm (prompt : string) (default : option bool)
| Ran (n : nat) (cmd : list string) (capture : bool) (o : proc_outcome)
| Logged (l : level) (msg : string).

Record world := {
  stdin : list input;
  nruns : nat;
  trace : list event;
}.

Inductive result (A : Type) :=
| Ok (a : A)
| Raise (e : exn)
| OutOfFuel.
Arguments Ok {A} a.
Arguments Raise {A} e.
Arguments OutOfFuel {A}.

Definition M (A : Type) : Type := world -> result A * world.

Definition ret {A} (a : A) : M A := fun w => (Ok a, w).

Definition bind {A B} (m : M A) (k : A -> M B) : M B :=
  fun w =>
    match m w with
    | (Ok a, w') => k a w'
    | (Raise e, w') => (Raise e, w')
    | (OutOfFuel, w') => (OutOfFuel, w')
    end.

Definition raise {A} (e : exn) : M A := fun w => (Raise e, w).

(** [try: m except ...: h]: the handler [h] answers [None] for an exception
    that no [except] clause matches. *)
Definition try_except {A} (m : M A) (h : exn -> option (M A)) : M A :=
  fun w =>
    match m w with
    | (Raise e, w') =>
        match h e with
        | Some k => k w'
        | None => (Raise e, w')
        end
    | r => r
    end.

Declare Scope py_scope.
Delimit Scope py_scope with py.
Notation "'let*' x ':=' m 'in' k" := (bind m (fun x => k))
  (at level 10, x name, m at level 100, k at level 200) : py_scope.
Notation "m '>>' k" := (bind m (fun _ => k))
  (at level 65, right associativity) : py_scope.
Local Open Scope py_scope.

Definition emit (e : event) : M unit :=
  fun w => (Ok tt, {| stdin := stdin w; nruns := nruns w;
                      trace := trace w ++ [e] |}).

(** [console.print(s)] *)
Definition print (s : string) : M unit := emit (Print s).
(** [logger.info(s)], [logger.error(s)] *)
Definition log_info (s : string) : M unit := emit (Logged INFO s).
Definition log_error (s : string) : M unit := emit (Logged ERROR s).
(** [sys.exit(n)] *)
Definition sys_exit {A} (n : Z) : M A := raise (SystemExit n).

(** *** Prompts of the [rich] library

    [Prompt.ask] shows the prompt and reads a line.  An empty line gives the
    default when there is one.  Otherwise the line is stripped and, when
    choices are given, checked against them; an invalid answer is reported
    and the prompt is shown again.  At the end of the input [input()] raises
    [EOFError]. *)
Fixpoint ask_loop (p : string) (default : option string)
    (choices : option (list string)) (password : bool)
    (ins : list input) (tr : list event)
  : result string * (list input * list event) :=
  let tr := tr ++ [Asked p default choices password] in
  match ins with
  | [] => (Raise EOFError, ([], tr))
  | CtrlC :: ins' => (Raise KeyboardInterrupt, (ins', tr))
  | Line v :: ins' =>
      match v, default with
      | EmptyString, Some d => (Ok d, (ins', tr))
      | _, _ =>
          let v' := Py.strip v in
          match choices with
          | None => (Ok v', (ins', tr))
          | Some cs =>
              if Py.str_in v' cs then (Ok v', (ins', tr))
              else ask_loop p default choices password ins'
                     (tr ++ [Print "Please select one of the available options"])
          end
      end
  end.

Definition ask (p : string) (default : option string)
    (choices : option (list string)) (password : bool) : M string :=
  fun w =>
    let '(r, (ins, tr)) := ask_loop p default choices password (stdin w) (trace w) in
    (r, {| stdin := ins; nruns := nruns w; trace := tr |}).

(** [Confirm.ask]: the answer is stripped and lowered and must be [y] or
    [n]. *)
Fixpoint confirm_loop (p : string) (default : option bool)
    (ins : list input) (tr : list event)
  : result bool * (list input * list event) :=
  let tr := tr ++ [AskedConfirm p default] in
  match ins with
  | [] => (Raise EOFError, ([], tr))
  | CtrlC :: ins' => (Raise KeyboardInterrupt, (ins', tr))
  | Line v :: ins' =>
      match v, default with
      | EmptyString, Some d => (Ok d, (ins', tr))
      | _, _ =>
          let v' := Py.lower (Py.strip v) in
          if Py.str_in v' ["y"; "n"] then (Ok (String.eqb v' "y"), (ins', tr))
          else confirm_loop p default ins' (tr ++ [Print "Please enter Y or N"])
      end
  end.

Definition confirm (p : string) (default : option bool) : M bool :=
  fun w =>
    let '(r, (ins, tr)) := confirm_loop p default (stdin w) (trace w) in
    (r, {| stdin := ins; nruns := nruns w; trace := tr |}).

(** ** Observations on traces *)

Definition prompt_label (e : event) : option string :=
  match e with
  | Asked p _ _ _ => Some p
  | AskedConfirm p _ => Some p
  | _ => None
  end.

(** The prompts shown, in order. *)
Definition prompts (tr : list event) : list string := omap prompt_label tr.

Definition ran_command (e : event) : option (list string) :=
  match e with
  | Ran _ cmd _ _ => Some cmd
  | _ => None
  end.

(** The command lines of the subprocesses started, in order. *)
Definition invocations (tr : list event) : list (list string) :=
  omap ran_command tr.

(** The world after [k] subprocesses were started, [ins] is what is left of
    the input and the events [evs] were observed. *)
Definition advance (w : world) (k : nat) (ins : list input) (evs : list event)
  : world :=
  {| stdin := ins; nruns := k + nruns w; trace := trace w ++ evs |}.

(** *** Values decoded from JSON, as Python sees them *)

(** [not v] is [negb (json_truthy v)]. *)
Definition json_truthy (v : JSON) : bool :=
  match v with
  | JNull => false
  | JBool b => b
  | JInt z => negb (z =? 0)%Z
  | JFloat nz => nz
  | JString s => Py.truthy s
  | JArray l => match l with [] => false | _ => true end
  | JObject m => negb (bool_decide (m = ∅))
  end.

Fixpoint chars (s : string) : list string :=
  match s with
  | EmptyString => []
  | String c r => String c EmptyString :: chars r
  end.

(** [for x in v]: a list gives its elements, a dict its keys, a string its
    characters; the other values are not iterable. *)
Definition json_iter (v : JSON) : exn + list JSON :=
  match v with
  | JArray l => inr l
  | JObject m => inr (JString <$> (map_to_list m).*1)
  | JString s => inr (JString <$> chars s)
  | _ => inl TypeError
  end.

(** [v.get(k, d)]: only a dict has the method. *)
Definition json_get (v : JSON) (k : string) (d : JSON) : exn + JSON :=
  match v with
  | JObject m => inr (default d (m !! k))
  | _ => inl AttributeError
  end.

(** One cell given to [Table.add_row]: a string is rendered as it is, [None]
    as an empty cell, and nothing else is renderable. *)
Definition render_cell (v : JSON) : exn + string :=
  match v with
  | JString s => inr s
  | JNull => inr ""
  | _ => inl NotRenderableError
  end.

Definition ebind {A B} (x : exn + A) (k : A -> exn + B) : exn + B :=
  match x with
  | inl e => inl e
  | inr a => k a
  end.

Fixpoint emap {A B} (f : A -> exn + B) (l : list A) : exn + list B :=
  match l with
  | [] => inr []
  | a :: l' => ebind (f a) (fun b => ebind (emap f l') (fun bs => inr (b :: bs)))
  end.

(** The cells of [table.add_row(...)] in [list_repositories], in argument
    order. *)
Definition repo_cells (repo : JSON) : exn + list JSON :=
  ebind (json_get repo "repo" (JString "")) (fun c1 =>
  ebind (json_get repo "name" (JString "")) (fun c2 =>
  ebind (json_get repo "status" (JString "")) (fun c3 =>
  ebind (ebind (json_get repo "connectionState" (JObject ∅))
               (fun cs => json_get cs "status" (JString ""))) (fun c4 =>
  ebind (json_get repo "project" (JString "")) (fun c5 =>
  inr [c1; c2; c3; c4; c5]))))).

Definition repo_row (repo : JSON) : exn + list string :=
  ebind (repo_cells repo) (emap render_cell).

(** The cells of [table.add_row(...)] in [list_applications]. *)
Definition app_cells (app : JSON) : exn + list JSON :=
  ebind (json_get app "status" (JObject ∅)) (fun status =>
  ebind (json_get app "spec" (JObject ∅)) (fun spec =>
  ebind (json_get spec "destination" (JObject ∅)) (fun destination =>
  ebind (json_get app "metadata" (JObject ∅)) (fun metadata =>
  ebind (json_get metadata "name" (JString "")) (fun c1 =>
  ebind (json_get spec "project" (JString "")) (fun c2 =>
  ebind (json_get destination "server" (JString "")) (fun c3 =>
  ebind (json_get destination "namespace" (JString "")) (fun c4 =>
  ebind (ebind (json_get status "sync" (JObject ∅))
               (fun sy => json_get sy "status" (JString ""))) (fun c5 =>
  ebind (ebind (json_get status "health" (JObject ∅))
               (fun h => json_get h "status" (JString ""))) (fun c6 =>
  inr [c1; c2; c3; c4; c5; c6])))))))))).

Definition app_row (app : JSON) : exn + list string :=
  ebind (app_cells app) (emap render_cell).

(** The rows of the table, one per element of the decoded value. *)
Definition table_rows (row : JSON -> exn + list string) (v : JSON)
  : exn + list (list string) :=
  ebind (json_iter v) (emap row).

Definition lift {A} (x : exn + A) : M A :=
  match x with
  | inl e => raise e
  | inr a => ret a
  end.

(** ** The program *)

Section Program.

(** [os.getenv] once the [.env] file has been loaded. *)
Context (getenv : string -> option string).
(** What the [n]-th subprocess started by the program does, given its
    command line. *)
Context (subprocess : nat -> list string -> proc_outcome).
(** [json.loads]; [None] stands for [JSONDecodeError]. *)
Context (json_loads : string -> option JSON).
(** [str(e)] for an exception, as formatted by the interpreter. *)
Context (exn_str : exn -> string).

(** What [subprocess.run(cmd, capture_output=capture, text=True,
    check=check)] gives for an outcome of the subprocess. *)
Definition run_result (cmd : list string) (capture check : bool)
    (o : proc_outcome) : result CompletedProcess :=
  match o with
  | NotFound => Raise FileNotFoundError
  | Exited rc out err =>
      let out' := if capture then Some out else None in
      let err' := if capture then Some err else None in
      if check && negb (rc =? 0)%Z
      then Raise (CalledProcessError rc cmd out' err')
      else Ok {| returncode := rc; stdout := out'; stderr := err' |}
  end.

(** [subprocess.run(cmd, capture_output=capture, text=True, check=check)] *)
Definition run (cmd : list string) (capture check : bool) : M CompletedProcess :=
  fun w =>
    let o := subprocess (nruns w) cmd in
    (run_result cmd capture check o,
     {| stdin := stdin w; nruns := S (nruns w);
        trace := trace w ++ [Ran (nruns w) cmd capture o] |}).

(** [os.getenv(k) or m] *)
Definition getenv_or (k : string) (m : M string) : M string :=
  match getenv k with
  | Some v => if Py.truthy v then ret v else m
  | None => m
  end.

Definition login_command (host port username password : string)
    (insecure : bool) : list string :=
  ["argocd"; "login"; host +:+ ":" +:+ port;
   "--username"; username; "--password"; password]
  ++ (if insecure then ["--insecure"] else []).

(** The end of [login_to_argocd], from the credentials on. *)
Definition startup_attempt (argo_host argo_port argo_username argo_password : string)
    (insecure : bool) : M bool :=
  let server_address := argo_host +:+ ":" +:+ argo_port in
  print ("Attempting to log in to [cyan]" +:+ server_address +:+ "[/cyan]...") >>
  let command :=
    login_command argo_host argo_port argo_username argo_password insecure in
  try_except
    (let* result := run command true true in
     log_info ("Successfully logged in: " +:+ Py.str_opt (stdout result)) >>
     print "[green]Authentication successful.[/green]" >>
     ret true)
    (fun e =>
       match e with
       | FileNotFoundError => Some (
           log_error "The 'argocd' command was not found." >>
           print "[bold red]Error: The 'argocd' CLI is not installed or not in your system's PATH.[/bold red]" >>
           sys_exit 1)
       | CalledProcessError _ _ _ err => Some (
           log_error ("Failed to log in. Stderr: " +:+ Py.str_opt err) >>
           print "[red]Error: Authentication failed. Check credentials and connection details.[/red]" >>
           print ("[dim]" +:+ Py.str_opt err +:+ "[/dim]") >>
           ret false)
       | _ => None
       end).

(** [os.getenv("ARGO_INSECURE_SKIP_VERIFY", "false").lower() in ("true", "1", "yes")] *)
Definition env_insecure : bool :=
  Py.str_in (Py.lower (default "false" (getenv "ARGO_INSECURE_SKIP_VERIFY")))
    ["true"; "1"; "yes"].

Definition login_to_argocd : M bool :=
  let* argo_host :=
    getenv_or "ARGO_HOST" (ask "Enter ArgoCD host" (Some "localhost") None false) in
  let* argo_port :=
    getenv_or "ARGO_PORT" (ask "Enter ArgoCD port" (Some "8080") None false) in
  let* argo_username :=
    getenv_or "ARGO_USERNAME" (ask "Enter ArgoCD username" None None false) in
  let* argo_password :=
    getenv_or "ARGO_PASSWORD" (ask "Enter ArgoCD password" None None true) in
  let insecure := env_insecure in
  startup_attempt argo_host argo_port argo_username argo_password insecure.

(** The end of [prompt_and_login], from the credentials on. *)
Definition retry_attempt (argo_host argo_port argo_username argo_password : string)
    (insecure : bool) : M bool :=
  let server_address := argo_host +:+ ":" +:+ argo_port in
  print ("Attempting to log in to [cyan]" +:+ server_address +:+ "[/cyan]...") >>
  let command :=
    login_command argo_host argo_port argo_username argo_password insecure in
  try_except
    (let* result := run command true true in
     log_info ("Successfully logged in: " +:+ Py.str_opt (stdout result)) >>
     print "[green]Authentication successful.[/green]" >>
     ret true)
    (fun e =>
       match e with
       | CalledProcessError _ _ _ err => Some (
           log_error ("Failed to log in. Stderr: " +:+ Py.str_opt err) >>
           print "[red]Error: Authentication failed.[/red]" >>
           print ("[dim]" +:+ Py.str_opt err +:+ "[/dim]") >>
           ret false)
       | _ => None
       end).

Definition prompt_and_login : M bool :=
  print (Py.NL +:+ "[bold]Enter ArgoCD Credentials[/bold]") >>
  let* argo_host := ask "Enter ArgoCD host" (Some "localhost") None false in
  let* argo_port := ask "Enter ArgoCD port" (Some "8080") None false in
  let* argo_username := ask "Enter ArgoCD username" None None false in
  let* argo_password := ask "Enter ArgoCD password" None None true in
  let* insecure :=
    confirm "Skip TLS certificate verification (insecure)?" (Some true) in
  retry_attempt argo_host argo_port argo_username argo_password insecure.

Definition kubectl_missing : M unit :=
  log_error "The 'kubectl' command was not found." >>
  print "[bold red]Error: The 'kubectl' CLI is not installed or not in your system's PATH.[/bold red]".

Definition manifest_url : string :=
  "https://raw.githubusercontent.com/argoproj/argo-cd/stable/manifests/install.yaml".

Definition install_argocd : M unit :=
  print (Py.NL +:+ "[bold]Install ArgoCD into a Kubernetes Cluster[/bold]") >>
  print "This requires `kubectl` to be installed and configured to access your cluster." >>
  let* namespace :=
    ask "Enter the namespace for ArgoCD installation" (Some "argocd") None false in
  try_except
    (print ("Attempting to create namespace '[cyan]" +:+ namespace +:+ "[/cyan]'...") >>
     let create_ns_command := ["kubectl"; "create"; "namespace"; namespace] in
     let* result := run create_ns_command true false in
     (if (returncode result =? 0)%Z then
        print ("[green]Namespace '" +:+ namespace +:+ "' created.[/green]")
      else
        match stderr result with
        | None => raise TypeError
        | Some err =>
            if Py.contains "already exists" err then
              print ("[yellow]Namespace '" +:+ namespace +:+ "' already exists. Continuing.[/yellow]")
            else
              raise (CalledProcessError (returncode result) create_ns_command
                       (stdout result) (stderr result))
        end) >>
     print "Applying ArgoCD installation manifest..." >>
     let install_command := ["kubectl"; "apply"; "-n"; namespace; "-f"; manifest_url] in
     run install_command false true >>
     log_info ("Successfully applied ArgoCD manifests to namespace '" +:+ namespace +:+ "'.") >>
     print (Py.NL +:+ "[green]ArgoCD installation manifest applied successfully to namespace '"
            +:+ namespace +:+ "'.[/green]") >>
     print "Run 'Check ArgoCD Installation Status' to see the pods start up.")
    (fun e =>
       match e with
       | FileNotFoundError => Some kubectl_missing
       | CalledProcessError _ _ _ err => Some (
           log_error ("An error occurred during installation. Stderr: " +:+ Py.str_opt err) >>
           print "[bold red]An error occurred during the installation process.[/bold red]" >>
           print ("[dim]" +:+ Py.str_opt err +:+ "[/dim]"))
       | _ => None
       end).

Definition check_installation_status : M unit :=
  print (Py.NL +:+ "[bold]Check ArgoCD Installation Status[/bold]") >>
  let* namespace :=
    ask "Enter the namespace where ArgoCD is installed" (Some "argocd") None false in
  let command := ["kubectl"; "get"; "pods"; "-n"; namespace] in
  try_except
    (print ("Fetching pod status in namespace '[cyan]" +:+ namespace +:+ "[/cyan]'...") >>
     run command false true >>
     ret tt)
    (fun e =>
       match e with
       | FileNotFoundError => Some kubectl_missing
       | CalledProcessError _ _ _ err => Some (
           log_error ("Failed to get pod status. Stderr: " +:+ Py.str_opt err) >>
           print "[bold red]An error occurred while fetching pod status.[/bold red]" >>
           print ("[dim]" +:+ Py.str_opt err +:+ "[/dim]"))
       | _ => None
       end).

Definition delete_argocd_installation : M unit :=
  print (Py.NL +:+ "[bold red]Uninstall ArgoCD from a Kubernetes Cluster[/bold red]") >>
  let* namespace :=
    ask "Enter the namespace where ArgoCD is installed" (Some "argocd") None false in
  print (Py.NL +:+ "[bold yellow]Warning:[/bold yellow] This is a destructive action that will remove all ArgoCD resources from the '"
         +:+ namespace +:+ "' namespace.") >>
  let* sure :=
    confirm ("Are you sure you want to proceed with uninstalling ArgoCD from namespace '[cyan]"
             +:+ namespace +:+ "[/cyan]'?") None in
  if negb sure then print "Uninstallation cancelled."
  else
  try_except
    (print ("Deleting ArgoCD resources from namespace '[cyan]" +:+ namespace +:+ "[/cyan]'...") >>
     let delete_command := ["kubectl"; "delete"; "-n"; namespace; "-f"; manifest_url] in
     run delete_command false true >>
     log_info ("Successfully deleted ArgoCD resources from namespace '" +:+ namespace +:+ "'.") >>
     print "[green]ArgoCD resources have been deleted.[/green]" >>
     let* also :=
       confirm (Py.NL +:+ "Do you also want to delete the entire '[cyan]" +:+ namespace
                +:+ "[/cyan]' namespace?") None in
     if also then
       print ("Deleting namespace '" +:+ namespace +:+ "'...") >>
       let delete_ns_command := ["kubectl"; "delete"; "namespace"; namespace] in
       run delete_ns_command false true >>
       log_info ("Successfully deleted namespace '" +:+ namespace +:+ "'.") >>
       print ("[green]Namespace '" +:+ namespace +:+ "' has been deleted.[/green]")
     else ret tt)
    (fun e =>
       match e with
       | FileNotFoundError => Some kubectl_missing
       | CalledProcessError _ _ _ err => Some (
           log_error ("An error occurred during uninstallation. Stderr: " +:+ Py.str_opt err) >>
           print "[bold red]An error occurred during the uninstallation process.[/bold red]" >>
           print ("[dim]" +:+ Py.str_opt err +:+ "[/dim]"))
       | _ => None
       end).


(** [json.loads(s)] for the captured output of a subprocess. *)
Definition loads (s : option string) : M JSON :=
  match s with
  | None => raise TypeError
  | Some s =>
      match json_loads s with
      | Some v => ret v
      | None => raise JSONDecodeError
      end
  end.

Definition repo_headers : list string :=
  ["REPO"; "NAME"; "STATUS"; "CONNECTION"; "PROJECT"].

Definition repo_list_command : list string :=
  ["argocd"; "repo"; "list"; "-o"; "json"].

Definition list_repositories : M unit :=
  print (Py.NL +:+ "[bold]Fetching Repositories...[/bold]") >>
  let command := repo_list_command in
  try_except
    (let* result := run command true true in
     let* repos := loads (stdout result) in
     if negb (json_truthy repos) then print "No repositories found."
     else
       let* rows := lift (table_rows repo_row repos) in
       emit (PrintTable (Some "ArgoCD Repositories") repo_headers rows))
    (fun e =>
       match e with
       | JSONDecodeError => Some (
           log_error "Failed to parse JSON from argocd CLI output." >>
           print "[red]Error: Could not parse the data received from the ArgoCD CLI.[/red]")
       | CalledProcessError _ _ _ err => Some (
           log_error ("Failed to list repositories. Stderr: " +:+ Py.str_opt err) >>
           print "[red]Error: Failed to list repositories.[/red]" >>
           print ("[dim]" +:+ Py.str_opt err +:+ "[/dim]"))
       | _ => None
       end).

Definition add_credential_template : M unit :=
  print (Py.NL +:+ "[bold]Add Repository Credential Template[/bold]") >>
  print "This will store credentials for a URL prefix (e.g., 'https://github.com/my-org')." >>
  let* url_prefix := ask "Enter Repository URL Prefix" None None false in
  let* username := ask "Enter repository username" None None false in
  let* password := ask "Enter repository password or PAT" None None true in
  let command :=
    ["argocd"; "repocreds"; "add"; url_prefix;
     "--username"; username; "--password"; password] in
  try_except
    (print ("Adding credentials for [cyan]" +:+ url_prefix +:+ "[/cyan]...") >>
     let* result := run command true true in
     log_info ("Successfully added credential template: " +:+ Py.str_opt (stdout result)) >>
     print "[green]Successfully added credential template.[/green]")
    (fun e =>
       match e with
       | CalledProcessError _ _ _ err => Some (
           log_error ("Failed to add credential template. Stderr: " +:+ Py.str_opt err) >>
           print "[red]Error: Failed to add credential template.[/red]" >>
           print ("[dim]" +:+ Py.str_opt err +:+ "[/dim]"))
       | _ => None
       end).

Definition add_repository : M unit :=
  print (Py.NL +:+ "[bold]Add a new Repository to ArgoCD[/bold]") >>
  print "Note: If this is a private repository, ensure you have added a matching credential template first." >>
  let* repo_url :=
    ask "Enter the full Repository URL (e.g., https://github.com/my-org/my-repo.git)"
      None None false in
  let command := ["argocd"; "repo"; "add"; repo_url] in
  try_except
    (print "Registering repository..." >>
     let* result := run command true true in
     log_info ("Successfully added repository: " +:+ Py.str_opt (stdout result)) >>
     print ("[green]Successfully registered repository " +:+ repo_url +:+ ".[/green]"))
    (fun e =>
       match e with
       | CalledProcessError _ _ _ err => Some (
           log_error ("Failed to add repository. Stderr: " +:+ Py.str_opt err) >>
           print "[red]Error: Failed to register repository. Ensure the URL is correct and credentials have been added.[/red]" >>
           print ("[dim]" +:+ Py.str_opt err +:+ "[/dim]"))
       | _ => None
       end).

(** The sync options asked for by [create_application] and
    [create_application_batch]; [sfx] is the end of each question. *)
Definition sync_options (sfx : string) : M (list string) :=
  let* enable_auto_sync :=
    ask ("Enable automated sync" +:+ sfx) (Some "n") (Some ["y"; "n"]) false in
  if String.eqb enable_auto_sync "y" then
    let* enable_prune :=
      ask ("Enable auto-pruning" +:+ sfx) (Some "n") (Some ["y"; "n"]) false in
    let* enable_self_heal :=
      ask ("Enable self-healing" +:+ sfx) (Some "n") (Some ["y"; "n"]) false in
    ret (["--sync-policy"; "automated"]
         ++ (if String.eqb enable_prune "y" then ["--auto-prune"] else [])
         ++ (if String.eqb enable_self_heal "y" then ["--self-heal"] else []))
  else ret [].

Definition app_create_command
    (app_name repo_url revision path dest_server dest_namespace project : string)
  : list string :=
  ["argocd"; "app"; "create"; app_name;
   "--repo"; repo_url;
   "--revision"; revision;
   "--path"; path;
   "--dest-server"; dest_server;
   "--dest-namespace"; dest_namespace;
   "--project"; project].

Definition create_application : M unit :=
  print (Py.NL +:+ "[bold]Create a new ArgoCD Application[/bold]") >>
  let* app_name := ask "Application Name" None None false in
  let* repo_url := ask "Repository URL" None None false in
  let* revision := ask "Target branch/revision" (Some "HEAD") None false in
  let* path := ask "Path to manifests in repository" None None false in
  let* dest_server :=
    ask "Destination cluster URL" (Some "https://kubernetes.default.svc") None false in
  let* dest_namespace := ask "Destination namespace" None None false in
  let* project := ask "ArgoCD Project" (Some "default") None false in
  let* extra := sync_options "?" in
  let command :=
    app_create_command app_name repo_url revision path dest_server
      dest_namespace project ++ extra in
  try_except
    (print ("Creating application [cyan]" +:+ app_name +:+ "[/cyan]...") >>
     let* result := run command true true in
     log_info ("Successfully created application: " +:+ Py.str_opt (stdout result)) >>
     print ("[green]Successfully created application '" +:+ app_name +:+ "'.[/green]"))
    (fun e =>
       match e with
       | CalledProcessError _ _ _ err => Some (
           log_error ("Failed to create application. Stderr: " +:+ Py.str_opt err) >>
           print "[red]Error: Failed to create application.[/red]" >>
           print ("[dim]" +:+ Py.str_opt err +:+ "[/dim]"))
       | _ => None
       end).

Definition app_headers : list string :=
  ["NAME"; "PROJECT"; "SERVER"; "NAMESPACE"; "SYNC STATUS"; "HEALTH STATUS"].

Definition app_list_command : list string :=
  ["argocd"; "app"; "list"; "-o"; "json"].

Definition list_applications : M unit :=
  print (Py.NL +:+ "[bold]Fetching Applications...[/bold]") >>
  let command := app_list_command in
  try_except
    (let* result := run command true true in
     let* apps := loads (stdout result) in
     if negb (json_truthy apps) then print "No applications found."
     else
       let* rows := lift (table_rows app_row apps) in
       emit (PrintTable (Some "ArgoCD Applications") app_headers rows))
    (fun e =>
       match e with
       | JSONDecodeError => Some (
           log_error "Failed to parse JSON from argocd CLI output." >>
           print "[red]Error: Could not parse the data received from the ArgoCD CLI.[/red]")
       | CalledProcessError _ _ _ err => Some (
           log_error ("Failed to list applications. Stderr: " +:+ Py.str_opt err) >>
           print "[red]Error: Failed to list applications.[/red]" >>
           print ("[dim]" +:+ Py.str_opt err +:+ "[/dim]"))
       | _ => None
       end).

Definition delete_application : M unit :=
  print (Py.NL +:+ "[bold]Delete an ArgoCD Application[/bold]") >>
  let* app_name := ask "Enter the name of the application to delete" None None false in
  if negb (Py.truthy app_name) then
    print "[yellow]No application name entered. Aborting.[/yellow]"
  else
  let* confirmed :=
    confirm ("[bold red]Are you sure you want to delete the application '"
             +:+ app_name +:+ "'?[/bold red]") None in
  if negb confirmed then print "Deletion cancelled."
  else
  let command := ["argocd"; "app"; "delete"; app_name; "--yes"] in
  try_except
    (print ("Deleting application [cyan]" +:+ app_name +:+ "[/cyan]...") >>
     let* result := run command true true in
     log_info ("Successfully deleted application: " +:+ Py.str_opt (stdout result)) >>
     print ("[green]Successfully deleted application '" +:+ app_name +:+ "'.[/green]"))
    (fun e =>
       match e with
       | CalledProcessError _ _ _ err => Some (
           log_error ("Failed to delete application. Stderr: " +:+ Py.str_opt err) >>
           print "[red]Error: Failed to delete application. It may not exist.[/red]" >>
           print ("[dim]" +:+ Py.str_opt err +:+ "[/dim]"))
       | _ => None
       end).


(** [[name.strip() for name in s.split(',') if name.strip()]] *)
Definition parse_app_names (app_names_str : string) : list string :=
  omap (fun name => if Py.truthy (Py.strip name) then Some (Py.strip name) else None)
       (Py.split "," app_names_str).

(** The configuration shared by the items of a batch. *)
Record BatchConfig := {
  repo_url : string;
  revision : string;
  environment : string;
  dest_server : string;
  dest_namespace : string;
  project : string;
  base_command : list string;
}.

(** [f"{app_name}/overlay/{environment}"] *)
Definition batch_path (app_name environment : string) : string :=
  app_name +:+ "/overlay/" +:+ environment.

Definition batch_command (cfg : BatchConfig) (app_name : string) : list string :=
  app_create_command app_name (repo_url cfg) (revision cfg)
    (batch_path app_name (environment cfg)) (dest_server cfg)
    (dest_namespace cfg) (project cfg)
  ++ base_command cfg.

(** [successful_apps] and [failed_apps]. *)
Record BatchOutcome := {
  succeeded : list string;
  failed : list (string * string);
}.

(** The body of the [for app_name in app_names] loop: the outcome so far
    with this item recorded, and whether the loop goes on ([false] for
    [break]). *)
Definition batch_step (cfg : BatchConfig) (app_name : string)
    (acc : BatchOutcome) : M (BatchOutcome * bool) :=
  let path := batch_path app_name (environment cfg) in
  let command := batch_command cfg app_name in
  try_except
    (print ("Creating application [cyan]" +:+ app_name
            +:+ "[/cyan] with path [dim]'" +:+ path +:+ "'[/dim]...") >>
     run command true true >>
     ret ({| succeeded := succeeded acc ++ [app_name];
             failed := failed acc |}, true))
    (fun e =>
       match e with
       | CalledProcessError _ _ _ err => Some (
           match err with
           | None => raise AttributeError
           | Some err =>
               let error_message := Py.strip err in
               log_error ("Failed to create application '" +:+ app_name
                          +:+ "'. Stderr: " +:+ error_message) >>
               let acc' := {| succeeded := succeeded acc;
                              failed := failed acc ++ [(app_name, error_message)] |} in
               print ("[bold red]  -> Error creating '" +:+ app_name
                      +:+ "'.[/bold red]") >>
               let* go_on :=
                 confirm "An error occurred. Continue with the next application?" None in
               if negb go_on then
                 print "[yellow]Batch creation aborted by user.[/yellow]" >>
                 ret (acc', false)
               else ret (acc', true)
           end)
       | _ => None
       end).

(** The [for app_name in app_names] loop; it ends at the end of the list or
    at the [break]. *)
Fixpoint batch_loop (cfg : BatchConfig) (app_names : list string)
    (acc : BatchOutcome) : M BatchOutcome :=
  match app_names with
  | [] => ret acc
  | app_name :: rest =>
      let* step := batch_step cfg app_name acc in
      if snd step then batch_loop cfg rest (fst step) else ret (fst step)
  end.

Definition success_row (app_name : string) : list string :=
  [app_name; "[green]Success[/green]"; "Application created."].

Definition failure_row (f : string * string) : list string :=
  [fst f; "[red]Failed[/red]"; snd f].

(** The rows of the summary table: the loop over [successful_apps], then
    the loop over [failed_apps]. *)
Definition summary_rows (o : BatchOutcome) : list (list string) :=
  (success_row <$> succeeded o) ++ (failure_row <$> failed o).

Definition summary_headers : list string :=
  ["Application Name"; "Status"; "Details / Error Message"].

(** The batch operation, from the shared configuration on; its value is the
    outcome that the summary renders. *)
Definition run_batch (cfg : BatchConfig) (app_names : list string) : M BatchOutcome :=
  print (Py.NL +:+ "[bold]Starting batch creation...[/bold]") >>
  let* o := batch_loop cfg app_names {| succeeded := []; failed := [] |} in
  print (Py.NL +:+ "[bold]Batch Creation Summary[/bold]") >>
  emit (PrintTable None summary_headers (summary_rows o)) >>
  print (Py.NL +:+ "[bold]Batch processing finished.[/bold]") >>
  ret o.

Definition ask_batch_config : M BatchConfig :=
  print (Py.NL +:+ "[bold]Enter shared configuration for the batch:[/bold]") >>
  let* repo_url := ask "Repository URL" None None false in
  let* revision := ask "Target branch/revision" (Some "HEAD") None false in
  let* environment := ask "Environment (e.g., dev, test, uat, prod)" None None false in
  let* dest_server :=
    ask "Destination cluster URL" (Some "https://kubernetes.default.svc") None false in
  let* dest_namespace := ask "Destination namespace" None None false in
  let* project := ask "ArgoCD Project" (Some "default") None false in
  let* base_command := sync_options " for all apps?" in
  ret {| repo_url := repo_url; revision := revision; environment := environment;
         dest_server := dest_server; dest_namespace := dest_namespace;
         project := project; base_command := base_command |}.

Definition create_application_batch : M unit :=
  print (Py.NL +:+ "[bold]Create a Batch of ArgoCD Applications[/bold]") >>
  let* app_names_str := ask "Enter application names (comma-separated)" None None false in
  let app_names := parse_app_names app_names_str in
  match app_names with
  | [] => print "[yellow]No application names entered. Aborting.[/yellow]"
  | _ =>
      let* cfg := ask_batch_config in
      run_batch cfg app_names >>
      ret tt
  end.

(** *** The menu *)

(** A value of the menu dictionaries: an operation, or a string. *)
Inductive menu_value :=
| Callable (f : M unit)
| Text (s : string).

Definition management_options : gmap string menu_value :=
  <["Add Credential Template" := Callable add_credential_template]>
  (<["Add Repository" := Callable add_repository]>
  (<["Create Application" := Callable create_application]>
  (<["Create Application Batch" := Callable create_application_batch]>
  (<["Delete Application" := Callable delete_application]>
  (<["List Applications" := Callable list_applications]>
  (<["List Repositories" := Callable list_repositories]> ∅)))))).

Definition setup_options : gmap string menu_value :=
  <["Check ArgoCD Installation Status" := Callable check_installation_status]>
  (<["Install ArgoCD" := Callable install_argocd]>
  (<["Uninstall ArgoCD" := Callable delete_argocd_installation]> ∅)).

(** [current_menu_text] for the present value of [logged_in]: the setup
    options, updated with the management options or with the retry entry. *)
Definition current_menu_text (logged_in : bool) : gmap string menu_value :=
  if logged_in then management_options ∪ setup_options
  else <["Login to ArgoCD" := Text "login_retry"]> setup_options.

(** [sorted(current_menu_text.keys())] *)
Definition sorted_menu_items (logged_in : bool) : list string :=
  Py.sorted (map_to_list (current_menu_text logged_in)).*1.

(** [l[i]] with Python's negative indices. *)
Definition py_index {A} (l : list A) (i : Z) : M A :=
  let n := Z.of_nat (length l) in
  let j := if (i <? 0)%Z then (n + i)%Z else i in
  if (j <? 0)%Z then raise IndexError
  else match l !! Z.to_nat j with
       | Some a => ret a
       | None => raise IndexError
       end.

(** The lines of the menu: the numbered items, then the exit entry. *)
Definition menu_lines (items : list string) : list string :=
  imap (fun i item_text => "[bold]" +:+ Py.str (S i) +:+ ":[/bold] " +:+ item_text) items
  ++ ["[bold]" +:+ Py.str (length items + 1) +:+ ":[/bold] Exit"].

Fixpoint print_all (l : list string) : M unit :=
  match l with
  | [] => ret tt
  | s :: l' => print s >> print_all l'
  end.

(** [valid_choices] *)
Definition valid_choices (items : list string) : list string :=
  Py.str <$> Py.range 1 (length items + 1 + 1).

(** The retry loop: its value is the new value of [logged_in]. *)
Fixpoint login_retry_loop (fuel : nat) (logged_in : bool) : M bool :=
  match fuel with
  | 0 => fun w => (OutOfFuel, w)
  | S fuel' =>
      let* success := prompt_and_login in
      if success then ret true
      else
        let* again :=
          confirm "[yellow]Login failed. Do you want to try again with different credentials?[/yellow]" None in
        if negb again then ret logged_in
        else login_retry_loop fuel' logged_in
  end.

(** Every turn of the retry loop reads a line, so the number of pending
    lines bounds the number of turns. *)
Definition login_retry (logged_in : bool) : M bool :=
  fun w => login_retry_loop (S (length (stdin w))) logged_in w.

(** The first half of a turn of the menu loop: the menu is printed and a
    choice is read and looked up.  [None] stands for the choice of the exit
    entry, after which the loop is left. *)
Definition choose_action (logged_in : bool) : M (option menu_value) :=
  print (Py.NL +:+ "[bold]Main Menu[/bold]") >>
  let menu := current_menu_text logged_in in
  let items := sorted_menu_items logged_in in
  print_all (menu_lines items) >>
  let exit_option_number := length items + 1 in
  let* choice :=
    ask "Choose an action" (Some (Py.str exit_option_number))
      (Some (valid_choices items)) false in
  if String.eqb choice (Py.str exit_option_number) then
    print (Py.NL +:+ "Exiting.") >>
    ret None
  else
    let* n := match Py.int choice with
              | Some n => ret n
              | None => raise ValueError
              end in
    let* selected_item_text := py_index items (n - 1) in
    let* selected_action := match menu !! selected_item_text with
                            | Some v => ret v
                            | None => raise KeyError
                            end in
    ret (Some selected_action).

(** One turn of the menu loop: [None] for [break], otherwise the value of
    [logged_in] for the next turn. *)
Definition menu_iteration (logged_in : bool) : M (option bool) :=
  let* selected := choose_action logged_in in
  match selected with
  | None => ret None
  | Some (Text s) =>
      if String.eqb s "login_retry" then
        let* b := login_retry logged_in in ret (Some b)
      else raise TypeError
  | Some (Callable f) => f >> ret (Some logged_in)
  end.

Fixpoint menu_loop (fuel : nat) (logged_in : bool) : M unit :=
  match fuel with
  | 0 => fun w => (OutOfFuel, w)
  | S fuel' =>
      let* next := menu_iteration logged_in in
      match next with
      | None => ret tt
      | Some logged_in' => menu_loop fuel' logged_in'
      end
  end.

(** The [except] clauses of [main]. *)
Definition main_handler (e : exn) : option (M unit) :=
  match e with
  | KeyboardInterrupt => Some (
      print (Py.NL +:+ Py.NL +:+ "[bold yellow]Interrupted by user. Exiting gracefully.[/bold yellow]") >>
      sys_exit 0)
  | _ =>
      if is_Exception e then Some (
        log_error ("An unexpected error occurred in the main loop: " +:+ exn_str e) >>
        print (Py.NL +:+ "[bold red]An unexpected error occurred: " +:+ exn_str e
               +:+ "[/bold red]") >>
        sys_exit 1)
      else None
  end.

(** The menu loop under the [try] of [main]. *)
Definition guarded_menu_loop (logged_in : bool) : M unit :=
  fun w => try_except (menu_loop (S (length (stdin w))) logged_in) main_handler w.

Definition main : M unit :=
  print "[bold cyan]Welcome to the ArgoCD Interactive CLI[/bold cyan]" >>
  let* logged_in := login_to_argocd in
  guarded_menu_loop logged_in.


(** *** The batch names, in the words of the specification: split on commas,
    strip every fragment, discard the fragments that are empty. *)
Definition names_by_words (s : string) : list string :=
  filter (fun name => name <> "") (Py.strip <$> Py.split "," s).

(** A string of commas and whitespace only. *)
Definition commas_and_spaces (s : string) : Prop :=
  Forall (fun c => c = ","%char \/ Py.isspace c = true) (list_ascii_of_string s).

Definition blank (s : string) : Prop :=
  Forall (fun c => Py.isspace c = true) (list_ascii_of_string s).

(** *** Fields of a record

    A field of a record is named by the keys that lead to it.  [get_path]
    is the chain of [.get] calls of the source for such a field: an empty
    dict is the default on the way, the empty string at the end. *)
Fixpoint get_path (v : JSON) (path : list string) : exn + JSON :=
  match path with
  | [] => inr v
  | [k] => json_get v k (JString "")
  | k :: ks => ebind (json_get v k (JObject ∅)) (fun v' => get_path v' ks)
  end.

(** The field is absent: a key on the path is missing from the dict in which
    it is looked up. *)
Fixpoint absent (v : JSON) (path : list string) : Prop :=
  match path with
  | [] => False
  | k :: ks =>
      match v with
      | JObject m =>
          match m !! k with
          | None => True
          | Some v' => absent v' ks
          end
      | _ => False
      end
  end.

(** The field is there and can be put in a table cell. *)
Definition renders (v : JSON) (path : list string) : Prop :=
  exists c s, get_path v path = inr c /\ render_cell c = inr s.

Inductive list_kind := Repositories | Applications.

(** The columns of each table, as fields of a record. *)
Definition columns (k : list_kind) : list (list string) :=
  match k with
  | Repositories =>
      [["repo"]; ["name"]; ["status"]; ["connectionState"; "status"]; ["project"]]
  | Applications =>
      [["metadata"; "name"]; ["spec"; "project"];
       ["spec"; "destination"; "server"]; ["spec"; "destination"; "namespace"];
       ["status"; "sync"; "status"]; ["status"; "health"; "status"]]
  end.

Definition row_of (k : list_kind) : JSON -> exn + list string :=
  match k with
  | Repositories => repo_row
  | Applications => app_row
  end.

(** *** What a prompt can do

    A prompt answers, or the input ends, or the user interrupts. *)
Definition prompt_result {A} (r : result A) : Prop :=
  (exists a, r = Ok a) \/ r = Raise EOFError \/ r = Raise KeyboardInterrupt.

Definition is_Ok {A} (r : result A) : Prop := exists a, r = Ok a.

(** *** Reasoning about runs

    [wp m w Q]: the run of [m] from [w] ends in a result and a world that
    satisfy [Q]. *)
Definition wp {A} (m : M A) (w : world) (Q : result A -> world -> Prop) : Prop :=
  Q (m w).1 (m w).2.

(** [m] gives a result and reads input without putting any back. *)
Definition tame {A} (m : M A) : Prop :=
  forall w, wp m w (fun r w' =>
    r <> OutOfFuel /\ length (stdin w') <= length (stdin w)).

(** [m] does not return normally without having read a line. *)
Definition consuming {A} (m : M A) : Prop :=
  forall w, wp m w (fun r w' =>
    is_Ok r -> length (stdin w') < length (stdin w)).

(** A value of the menu is well behaved when the operation it holds is. *)
Definition value_tame (v : menu_value) : Prop :=
  match v with
  | Callable f => tame f
  | Text _ => True
  end.

(** The trace ends with a login invocation that succeeded, followed by the
    two messages that report it. *)
Definition login_succeeded_last (tr : list event) : Prop :=
  exists tr0 n host port username password insecure out err,
    tr = tr0 ++
      [Ran n (login_command host port username password insecure) true
         (Exited 0 out err);
       Logged INFO ("Successfully logged in: " +:+ out);
       Print "[green]Authentication successful.[/green]"].

(** *** The credentials of the startup login *)

Inductive field := Host | Port | Username | Password | Insecure.

Definition env_key (f : field) : string :=
  match f with
  | Host => "ARGO_HOST"
  | Port => "ARGO_PORT"
  | Username => "ARGO_USERNAME"
  | Password => "ARGO_PASSWORD"
  | Insecure => "ARGO_INSECURE_SKIP_VERIFY"
  end.

(** The prompt of [login_to_argocd] for a field; it has none for the
    insecure flag. *)
Definition startup_prompt (f : field) : option string :=
  match f with
  | Host => Some "Enter ArgoCD host"
  | Port => Some "Enter ArgoCD port"
  | Username => Some "Enter ArgoCD username"
  | Password => Some "Enter ArgoCD password"
  | Insecure => None
  end.

(** The field that a prompt asks for: a prompt that is not one of the four
    above is taken to ask for the insecure flag. *)
Definition prompt_field (label : string) : field :=
  if String.eqb label "Enter ArgoCD host" then Host
  else if String.eqb label "Enter ArgoCD port" then Port
  else if String.eqb label "Enter ArgoCD username" then Username
  else if String.eqb label "Enter ArgoCD password" then Password
  else Insecure.

(** Among the events [tr] there is a prompt for the field. *)
Definition prompted (f : field) (tr : list event) : Prop :=
  exists label, label ∈ prompts tr /\ prompt_field label = f.

(** The value that the environment supplies: one that is set and is not the
    empty string, which [or] takes as missing. *)
Definition env_value (k : string) : option string :=
  match getenv k with
  | Some v => if Py.truthy v then Some v else None
  | None => None
  end.

(** The prompts for those of the fields [fs] that the environment does not
    supply. *)
Definition expected_prompts (fs : list field) : list string :=
  omap (fun f => match env_value (env_key f) with
                 | Some _ => None
                 | None => startup_prompt f
                 end) fs.

Definition startup_prompts : list string :=
  expected_prompts [Host; Port; Username; Password].

(** The claim on the startup login as the specification states it: once the
    login is attempted, each of the five fields was prompted for exactly
    when the environment has no value for it. *)
Definition startup_fields_claim (w : world) : Prop :=
  forall r w' evs,
    login_to_argocd w = (r, w') ->
    trace w' = trace w ++ evs ->
    invocations evs <> [] ->
    forall f,
      match getenv (env_key f) with
      | Some _ => ~ prompted f evs
      | None => prompted f evs
      end.

(** *** An executable that cannot be located *)

(** From the [n0]-th subprocess on, the executable [tool] is not found. *)
Definition missing (tool : string) (n0 : nat) : Prop :=
  forall n args, n0 <= n -> subprocess n (tool :: args) = NotFound.

(** What a run that started a subprocess after the [n0] first ones ended
    with: the result [x], after one subprocess. *)
Definition after_attempt {A} (n0 : nat) (x : result A)
  : result A -> world -> Prop :=
  fun r w' => nruns w' <> n0 -> r = x /\ nruns w' = S n0.

(** The operations of the menu that call [kubectl], and those that call
    [argocd]. *)
Definition kubectl_operations : list (M unit) :=
  [check_installation_status; install_argocd; delete_argocd_installation].

Definition argocd_operations : list (M unit) :=
  [add_credential_template; add_repository; create_application;
   create_application_batch; delete_application; list_applications;
   list_repositories].

(** The claim on an executable that is not found in the menu loop, as the
    specification states it: the turn of the loop in which it happens ends
    normally, and the loop goes on. *)
Definition not_found_returns_to_menu (logged_in : bool) (w : world) : Prop :=
  forall r w' evs,
    menu_iteration logged_in w = (r, w') ->
    trace w' = trace w ++ evs ->
    (exists n cmd capture, In (Ran n cmd capture NotFound) evs) ->
    exists next, r = Ok (Some next).

(** *** Sample worlds, for runs of the program on concrete inputs *)

Definition env_none : string -> option string := fun _ => None.

Definition env_host_only : string -> option string :=
  fun k => if String.eqb k "ARGO_HOST" then Some "argocd.example.org" else None.

(** Every subprocess has the same outcome. *)
Definition always (o : proc_outcome) : nat -> list string -> proc_outcome :=
  fun _ _ => o.

(** The second subprocess fails, the others succeed. *)
Definition second_fails : nat -> list string -> proc_outcome :=
  fun n _ => if (n =? 1)%nat then Exited 1 "" " application exists "
             else Exited 0 "created" "".

(** The executable is there for the first subprocess and gone afterwards. *)
Definition removed_after_first : nat -> list string -> proc_outcome :=
  fun n _ => if (n =? 0)%nat then Exited 0 "logged in" "" else NotFound.

(** A decoder that knows two texts. *)
Definition json_sample (s : string) : option JSON :=
  if String.eqb s "[]" then Some (JArray [])
  else if String.eqb s "[{}]" then Some (JArray [JObject ∅])
  else None.

Definition exn_name (e : exn) : string :=
  match e with
  | FileNotFoundError => "[Errno 2] No such file or directory"
  | CalledProcessError _ _ _ _ => "Command returned non-zero exit status"
  | JSONDecodeError => "Expecting value"
  | AttributeError => "object has no attribute 'get'"
  | TypeError => "object is not callable"
  | NotRenderableError => "unable to render"
  | ValueError => "invalid literal for int()"
  | IndexError => "list index out of range"
  | KeyError => "key"
  | EOFError => "EOF when reading a line"
  | KeyboardInterrupt => ""
  | SystemExit _ => ""
  end.

(** The world at the start of the program, with the lines that the user
    will type. *)
Definition start (lines : list string) : world :=
  {| stdin := Line <$> lines; nruns := 0; trace := [] |}.

Definition sample_config (env : string) : BatchConfig :=
  {| repo_url := "https://example.org/apps.git"; revision := "HEAD";
     environment := env; dest_server := "https://kubernetes.default.svc";
     dest_namespace := "apps"; project := "default"; base_command := [] |}.

(** A repository record with a name and an empty connection state. *)
Definition sample_record : JSON :=
  JObject (<["name" := JString "demo"]> (<["connectionState" := JObject ∅]> ∅)).

(** ** Properties *)

(** *** List operations *)

Lemma print_eq s w :
  print s w = (Ok tt, advance w 0 (stdin w) [Print s]).
Proof. reflexivity. Qed.

Lemma bind_ok {A B} (m : M A) (k : A -> M B) w a w1 :
  m w = (Ok a, w1) -> bind m k w = k a w1.
Proof. intros H. unfold bind. rewrite H. reflexivity. Qed.

Lemma bind_raise {A B} (m : M A) (k : A -> M B) w e w1 :
  m w = (Raise e, w1) -> bind m k w = (Raise e, w1).
Proof. intros H. unfold bind. rewrite H. reflexivity. Qed.

(** C8: when the tool's output decodes to an empty array, a list operation
    prints its "none found" message, renders no table and reports no parse
    error; when the output does not decode, it logs and prints the parse
    failure, a different message. *)
Theorem list_empty_and_malformed (w : world) (out err : string) :
  subprocess (nruns w) repo_list_command = Exited 0 out err ->
  subprocess (nruns w) app_list_command = Exited 0 out err ->
  (json_loads out = Some (JArray []) ->
     list_repositories w =
       (Ok tt, advance w 1 (stdin w)
          [Print (Py.NL +:+ "[bold]Fetching Repositories...[/bold]");
           Ran (nruns w) repo_list_command true (Exited 0 out err);
           Print "No repositories found."])
     /\ list_applications w =
       (Ok tt, advance w 1 (stdin w)
          [Print (Py.NL +:+ "[bold]Fetching Applications...[/bold]");
           Ran (nruns w) app_list_command true (Exited 0 out err);
           Print "No applications found."]))
  /\ (json_loads out = None ->
     list_repositories w =
       (Ok tt, advance w 1 (stdin w)
          [Print (Py.NL +:+ "[bold]Fetching Repositories...[/bold]");
           Ran (nruns w) repo_list_command true (Exited 0 out err);
           Logged ERROR "Failed to parse JSON from argocd CLI output.";
           Print "[red]Error: Could not parse the data received from the ArgoCD CLI.[/red]"])
     /\ list_applications w =
       (Ok tt, advance w 1 (stdin w)
          [Print (Py.NL +:+ "[bold]Fetching Applications...[/bold]");
           Ran (nruns w) app_list_command true (Exited 0 out err);
           Logged ERROR "Failed to parse JSON from argocd CLI output.";
           Print "[red]Error: Could not parse the data received from the ArgoCD CLI.[/red]"])).
Proof.
  intros Hr Ha.
  split; intros Hj; split.
  all: unfold list_repositories, list_applications, bind, try_except, run,
         loads, print, emit, advance; cbn [nruns stdin trace];
       rewrite ?Hr, ?Ha; cbn; rewrite Hj; cbn;
       rewrite <- ?app_assoc; reflexivity.
Qed.

(** *** Names of a batch *)

Lemma parse_app_names_words s : parse_app_names s = names_by_words s.
Proof.
  unfold parse_app_names, names_by_words.
  induction (Py.split "," s) as [|frag l IH]; [reflexivity|].
  cbn [omap list_omap fmap list_fmap]. rewrite IH.
  destruct (Py.strip frag) eqn:E; cbn [Py.truthy].
  - rewrite filter_cons_False; [reflexivity | intros H; apply H; reflexivity].
  - rewrite filter_cons_True; [reflexivity | discriminate].
Qed.

Lemma lstrip_blank s : blank s -> Py.lstrip s = "".
Proof.
  induction s as [|c r IH]; [reflexivity|].
  intros H. inversion H as [|? ? Hc Hr]; subst.
  cbn [Py.lstrip]. rewrite Hc. apply IH, Hr.
Qed.

Lemma strip_blank s : blank s -> Py.strip s = "".
Proof. intros H. unfold Py.strip. rewrite lstrip_blank; [reflexivity | exact H]. Qed.

Lemma comma_not_space : Py.isspace "," = false.
Proof. reflexivity. Qed.

Lemma split_commas_and_spaces s :
  commas_and_spaces s -> Forall blank (Py.split "," s).
Proof.
  induction s as [|c r IH]; intros H.
  - repeat constructor.
  - inversion H as [|? ? Hc Hr]; subst. specialize (IH Hr).
    cbn [Py.split]. destruct (Ascii.eqb_spec c ",") as [->|Hne].
    + constructor; [constructor | exact IH].
    + destruct Hc as [Hc|Hc]; [contradiction|].
      destruct (Py.split "," r) as [|f fs]; inversion IH; subst.
      * repeat constructor. exact Hc.
      * constructor; [|assumption]. constructor; assumption.
Qed.

Lemma lstrip_commas_and_spaces s :
  commas_and_spaces s -> commas_and_spaces (Py.lstrip s).
Proof.
  induction s as [|c r IH]; intros H; [exact H|].
  cbn [Py.lstrip]. destruct (Py.isspace c); [|exact H].
  apply IH. inversion H; assumption.
Qed.

Lemma rstrip_commas_and_spaces s :
  commas_and_spaces s -> commas_and_spaces (Py.rstrip s).
Proof.
  induction s as [|c r IH]; intros H; [exact H|].
  inversion H as [|? ? Hc Hr]; subst. specialize (IH Hr).
  cbn [Py.rstrip]. destruct (Py.rstrip r) eqn:E.
  - destruct (Py.isspace c) eqn:Ec; [constructor|].
    constructor; [rewrite Ec; exact Hc | constructor].
  - constructor; assumption.
Qed.

Lemma parse_commas_and_spaces s :
  commas_and_spaces s -> parse_app_names s = [].
Proof.
  intros H. apply split_commas_and_spaces in H.
  unfold parse_app_names.
  induction H as [|frag l Hf _ IH]; [reflexivity|].
  cbn [omap list_omap]. rewrite (strip_blank _ Hf). exact IH.
Qed.


(** *** Rows of the tables *)

Lemma json_get_cases (v : JSON) :
  (exists m, v = JObject m) \/ (forall k d, json_get v k d = inl AttributeError).
Proof. destruct v; eauto. Qed.

Lemma repo_cells_paths v :
  repo_cells v = emap (get_path v) (columns Repositories).
Proof.
  destruct (json_get_cases v) as [[m ->]|Hv].
  - cbn. destruct (json_get_cases (default (JObject ∅) (m !! "connectionState")))
      as [[m' ->]|Hc]; [reflexivity|].
    rewrite Hc. reflexivity.
  - unfold repo_cells. cbn. rewrite !Hv. reflexivity.
Qed.

Ltac split_get :=
  match goal with
  | |- context [json_get (default ?d ?o) _ _] =>
      let H := fresh "H" in
      destruct (json_get_cases (default d o)) as [[? ->]|H];
      cbn; rewrite ?H; cbn; try reflexivity
  end.

Lemma app_cells_paths v :
  app_cells v = emap (get_path v) (columns Applications).
Proof.
  destruct (json_get_cases v) as [[m ->]|Hv];
    [|unfold app_cells; cbn; rewrite !Hv; reflexivity].
  cbn. repeat split_get.
Qed.

Lemma get_path_empty k ks :
  get_path (JObject ∅) (k :: ks) = inr (JString "").
Proof.
  revert k. induction ks as [|k' ks IH]; intros k.
  - cbn. rewrite lookup_empty. reflexivity.
  - cbn [get_path json_get ebind]. rewrite lookup_empty. cbn [default].
    apply IH.
Qed.

Lemma absent_get_path v path :
  absent v path -> get_path v path = inr (JString "").
Proof.
  revert v. induction path as [|k ks IH]; intros v H; [destruct H|].
  cbn [absent] in H. destruct v as [| | | | | |m]; try destruct H.
  destruct (m !! k) as [v'|] eqn:E.
  - destruct ks as [|k' ks']; [destruct H|].
    specialize (IH v' H).
    cbn [get_path json_get ebind]. rewrite E. cbn [default]. exact IH.
  - destruct ks as [|k' ks'].
    + cbn. rewrite E. reflexivity.
    + cbn [get_path json_get ebind]. rewrite E. cbn [default].
      apply get_path_empty.
Qed.

Lemma cells_rendered v (paths : list (list string)) :
  (forall p, In p paths -> absent v p \/ renders v p) ->
  exists row,
    ebind (emap (get_path v) paths) (emap render_cell) = inr row
    /\ length row = length paths
    /\ forall i p, paths !! i = Some p -> absent v p -> row !! i = Some "".
Proof.
  induction paths as [|p paths IH]; intros H.
  - exists []. repeat split. intros i p Hi. destruct i; discriminate.
  - destruct IH as (row & Hrow & Hlen & Habs).
    { intros q Hq. apply H. right. exact Hq. }
    assert (Hp : exists c s, get_path v p = inr c /\ render_cell c = inr s
                 /\ (absent v p -> s = "")).
    { destruct (H p (or_introl eq_refl)) as [Ha|(c & s & Hc & Hs)].
      - exists (JString ""), "". rewrite (absent_get_path _ _ Ha). auto.
      - exists c, s. repeat split; try assumption.
        intros Ha. rewrite (absent_get_path _ _ Ha) in Hc.
        injection Hc as <-. cbn in Hs. injection Hs as <-. reflexivity. }
    destruct Hp as (c & s & Hc & Hs & Hempty).
    destruct (emap (get_path v) paths) as [e|cells] eqn:Ecells;
      [discriminate Hrow|].
    cbn [ebind] in Hrow.
    exists (s :: row). split; [|split].
    + cbn [emap ebind]. rewrite Hc. cbn [ebind]. rewrite Ecells. cbn [ebind emap].
      rewrite Hs. cbn [ebind]. rewrite Hrow. reflexivity.
    + cbn. rewrite Hlen. reflexivity.
    + intros [|i] q Hi Ha; cbn in Hi |- *.
      * injection Hi as <-. rewrite (Hempty Ha). reflexivity.
      * apply (Habs i q Hi Ha).
Qed.


(** *** Prompts *)

Lemma invocations_app tr1 tr2 :
  invocations (tr1 ++ tr2) = invocations tr1 ++ invocations tr2.
Proof. unfold invocations. apply omap_app. Qed.

Lemma prompts_app tr1 tr2 : prompts (tr1 ++ tr2) = prompts tr1 ++ prompts tr2.
Proof. unfold prompts. apply omap_app. Qed.

Lemma confirm_loop_spec p d ins tr :
  exists r ins' evs,
    confirm_loop p d ins tr = (r, (ins', tr ++ evs))
    /\ Forall (fun e => e = AskedConfirm p d \/ e = Print "Please enter Y or N") evs
    /\ length ins' <= length ins
    /\ prompt_result r
    /\ (is_Ok r -> length ins' < length ins).
Proof.
  revert tr. induction ins as [|i ins IH]; intros tr.
  - exists (Raise EOFError), [], [AskedConfirm p d]. cbn.
    repeat split; auto.
    + unfold prompt_result; auto.
    + intros [a Ha]; discriminate.
  - destruct i as [v|].
    + cbn [confirm_loop].
      assert (Hgo :
        (exists b, (match v, d with
                    | "", Some d0 => (Ok d0, (ins, tr ++ [AskedConfirm p d]))
                    | _, _ =>
                        if Py.str_in (Py.lower (Py.strip v)) ["y"; "n"]
                        then (Ok (String.eqb (Py.lower (Py.strip v)) "y"),
                              (ins, tr ++ [AskedConfirm p d]))
                        else confirm_loop p d ins
                               ((tr ++ [AskedConfirm p d]) ++ [Print "Please enter Y or N"])
                    end) = (Ok b, (ins, tr ++ [AskedConfirm p d])))
        \/ (match v, d with
            | "", Some d0 => (Ok d0, (ins, tr ++ [AskedConfirm p d]))
            | _, _ =>
                if Py.str_in (Py.lower (Py.strip v)) ["y"; "n"]
                then (Ok (String.eqb (Py.lower (Py.strip v)) "y"),
                      (ins, tr ++ [AskedConfirm p d]))
                else confirm_loop p d ins
                       ((tr ++ [AskedConfirm p d]) ++ [Print "Please enter Y or N"])
            end) = confirm_loop p d ins
                     ((tr ++ [AskedConfirm p d]) ++ [Print "Please enter Y or N"])).
      { destruct v, d;
          repeat match goal with
                 | |- context [if ?b then _ else _] => destruct b
                 end; eauto. }
      destruct Hgo as [[b ->]| ->].
      * exists (Ok b), ins, [AskedConfirm p d]. cbn.
        repeat split; auto. unfold prompt_result; eauto.
      * destruct (IH ((tr ++ [AskedConfirm p d]) ++ [Print "Please enter Y or N"]))
          as (r & ins' & evs & Heq & Hev & Hlen & Hr & Hok).
        exists r, ins', ([AskedConfirm p d; Print "Please enter Y or N"] ++ evs).
        rewrite Heq. rewrite <- !app_assoc. cbn.
        repeat split; auto.
        intros H. specialize (Hok H). lia.
    + exists (Raise KeyboardInterrupt), ins, [AskedConfirm p d]. cbn.
      repeat split; auto. unfold prompt_result; auto.
Qed.

Lemma confirm_spec p d w :
  exists r ins evs,
    confirm p d w = (r, advance w 0 ins evs)
    /\ Forall (fun e => e = AskedConfirm p d \/ e = Print "Please enter Y or N") evs
    /\ length ins <= length (stdin w)
    /\ prompt_result r
    /\ (is_Ok r -> length ins < length (stdin w)).
Proof.
  destruct (confirm_loop_spec p d (stdin w) (trace w))
    as (r & ins & evs & Heq & H).
  exists r, ins, evs. split; [|exact H].
  unfold confirm. rewrite Heq. reflexivity.
Qed.

Lemma ask_loop_spec p d c pw ins tr :
  exists r ins' evs,
    ask_loop p d c pw ins tr = (r, (ins', tr ++ evs))
    /\ Forall (fun e => e = Asked p d c pw
                        \/ e = Print "Please select one of the available options") evs
    /\ length ins' <= length ins
    /\ prompt_result r
    /\ (is_Ok r -> length ins' < length ins)
    /\ (forall a cs, r = Ok a -> c = Some cs -> In a cs \/ d = Some a).
Proof.
  revert tr. induction ins as [|i ins IH]; intros tr.
  - exists (Raise EOFError), [], [Asked p d c pw]. cbn.
    repeat split; auto.
    + unfold prompt_result; auto.
    + intros [a Ha]; discriminate.
    + discriminate.
  - destruct i as [v|].
    + cbn [ask_loop].
      set (tr1 := tr ++ [Asked p d c pw]).
      set (again := ask_loop p d c pw ins
                      (tr1 ++ [Print "Please select one of the available options"])).
      assert (Hgo :
        (exists a, (match v, d with
                    | "", Some d0 => (Ok d0, (ins, tr1))
                    | _, _ =>
                        match c with
                        | None => (Ok (Py.strip v), (ins, tr1))
                        | Some cs =>
                            if Py.str_in (Py.strip v) cs
                            then (Ok (Py.strip v), (ins, tr1))
                            else again
                        end
                    end) = (Ok a, (ins, tr1))
                   /\ forall cs, c = Some cs -> In a cs \/ d = Some a)
        \/ (match v, d with
            | "", Some d0 => (Ok d0, (ins, tr1))
            | _, _ =>
                match c with
                | None => (Ok (Py.strip v), (ins, tr1))
                | Some cs =>
                    if Py.str_in (Py.strip v) cs
                    then (Ok (Py.strip v), (ins, tr1))
                    else again
                end
            end) = again).
      { assert (Hin : forall x cs, Py.str_in x cs = true -> In x cs).
        { intros x cs Hx. unfold Py.str_in in Hx.
          apply existsb_exists in Hx. destruct Hx as (y & Hy & Hxy).
          apply String.eqb_eq in Hxy. subst. exact Hy. }
        destruct v, d, c as [cs|];
          try destruct (Py.str_in _ cs) eqn:E;
          try (right; reflexivity);
          left; eexists; (split; [reflexivity|]);
          intros cs' Hcs; try discriminate; injection Hcs as <-; auto. }
      destruct Hgo as [(a & -> & Ha)| ->].
      * exists (Ok a), ins, [Asked p d c pw]. cbn.
        repeat split; auto.
        -- unfold prompt_result; eauto.
        -- intros a' cs Heq Hc. injection Heq as <-. apply (Ha cs Hc).
      * destruct (IH (tr1 ++ [Print "Please select one of the available options"]))
          as (r & ins' & evs & Heq & Hev & Hlen & Hr & Hok & Hc).
        exists r, ins',
          ([Asked p d c pw; Print "Please select one of the available options"] ++ evs).
        unfold again. rewrite Heq. unfold tr1. rewrite <- !app_assoc. cbn.
        repeat split; auto.
        intros H. specialize (Hok H). lia.
    + exists (Raise KeyboardInterrupt), ins, [Asked p d c pw]. cbn.
      repeat split; auto; try discriminate. unfold prompt_result; auto.
Qed.

Lemma ask_spec p d c pw w :
  exists r ins evs,
    ask p d c pw w = (r, advance w 0 ins evs)
    /\ Forall (fun e => e = Asked p d c pw
                        \/ e = Print "Please select one of the available options") evs
    /\ length ins <= length (stdin w)
    /\ prompt_result r
    /\ (is_Ok r -> length ins < length (stdin w))
    /\ (forall a cs, r = Ok a -> c = Some cs -> In a cs \/ d = Some a).
Proof.
  destruct (ask_loop_spec p d c pw (stdin w) (trace w))
    as (r & ins & evs & Heq & H).
  exists r, ins, evs. split; [|exact H].
  unfold ask. rewrite Heq. reflexivity.
Qed.

(** *** The batch loop *)

Lemma stdin_advance w k i e : stdin (advance w k i e) = i.
Proof. reflexivity. Qed.

Lemma nruns_advance w k i e : nruns (advance w k i e) = k + nruns w.
Proof. reflexivity. Qed.

Lemma advance_advance w k1 i1 e1 k2 i2 e2 :
  advance (advance w k1 i1 e1) k2 i2 e2 = advance w (k2 + k1) i2 (e1 ++ e2).
Proof.
  unfold advance. cbn [nruns stdin trace].
  rewrite <- app_assoc, Nat.add_assoc. reflexivity.
Qed.

Lemma batch_step_success cfg name acc w out err :
  subprocess (nruns w) (batch_command cfg name) = Exited 0 out err ->
  batch_step cfg name acc w =
    (Ok ({| succeeded := succeeded acc ++ [name]; failed := failed acc |}, true),
     advance w 1 (stdin w)
       [Print ("Creating application [cyan]" +:+ name +:+ "[/cyan] with path [dim]'"
               +:+ batch_path name (environment cfg) +:+ "'[/dim]...");
        Ran (nruns w) (batch_command cfg name) true (Exited 0 out err)]).
Proof.
  intros H. unfold batch_step, try_except, bind, run, run_result, print, emit, ret, advance.
  cbn [nruns stdin trace]. rewrite H. cbn. rewrite <- ?app_assoc. reflexivity.
Qed.

Lemma confirm_no ans rest p tr :
  Py.lower (Py.strip ans) = "n" ->
  confirm_loop p None (Line ans :: rest) tr
  = (Ok false, (rest, tr ++ [AskedConfirm p None])).
Proof.
  intros H. cbn [confirm_loop]. rewrite H. destruct ans; reflexivity.
Qed.

Lemma batch_step_declined cfg name acc w rc out err ans rest :
  subprocess (nruns w) (batch_command cfg name) = Exited rc out err ->
  rc <> 0%Z ->
  stdin w = Line ans :: rest ->
  Py.lower (Py.strip ans) = "n" ->
  batch_step cfg name acc w =
    (Ok ({| succeeded := succeeded acc;
            failed := failed acc ++ [(name, Py.strip err)] |}, false),
     advance w 1 rest
       [Print ("Creating application [cyan]" +:+ name +:+ "[/cyan] with path [dim]'"
               +:+ batch_path name (environment cfg) +:+ "'[/dim]...");
        Ran (nruns w) (batch_command cfg name) true (Exited rc out err);
        Logged ERROR ("Failed to create application '" +:+ name
                      +:+ "'. Stderr: " +:+ Py.strip err);
        Print ("[bold red]  -> Error creating '" +:+ name +:+ "'.[/bold red]");
        AskedConfirm "An error occurred. Continue with the next application?" None;
        Print "[yellow]Batch creation aborted by user.[/yellow]"]).
Proof.
  intros H Hrc Hin Hn.
  unfold batch_step, try_except, bind, run, run_result, print, log_error, emit, ret,
    confirm, advance.
  cbn [nruns stdin trace]. rewrite H.
  apply Z.eqb_neq in Hrc. cbn [andb negb]. rewrite Hrc. cbn [negb].
  cbn [nruns stdin trace]. rewrite Hin.
  rewrite (confirm_no _ _ _ _ Hn). cbn. rewrite <- ?app_assoc. reflexivity.
Qed.

Lemma batch_step_spec cfg name acc w r w' :
  batch_step cfg name acc w = (r, w') ->
  exists evs,
    trace w' = trace w ++ evs
    /\ nruns w' = S (nruns w)
    /\ invocations evs = [batch_command cfg name]
    /\ length (stdin w') <= length (stdin w)
    /\ r <> OutOfFuel
    /\ forall o go, r = Ok (o, go) ->
         (o = {| succeeded := succeeded acc ++ [name]; failed := failed acc |}
          /\ go = true
          /\ exists out err,
               subprocess (nruns w) (batch_command cfg name) = Exited 0 out err)
         \/ (exists e,
               o = {| succeeded := succeeded acc;
                      failed := failed acc ++ [(name, e)] |}).
Proof.
  unfold batch_step, try_except, bind, run, run_result, print, log_error, emit, ret.
  cbn [nruns stdin trace].
  destruct (subprocess (nruns w) (batch_command cfg name)) as [|rc out err] eqn:E.
  - intros [= <- <-]. eexists. cbn [trace nruns stdin].
    rewrite <- app_assoc.
    repeat split; try reflexivity; try discriminate; try lia.
  - cbn [andb]. destruct (rc =? 0)%Z eqn:Erc; cbn [negb].
    + intros [= <- <-]. eexists. cbn [trace nruns stdin].
      rewrite <- app_assoc.
      repeat split; try reflexivity; try discriminate; try lia.
      intros o go [= <- <-]. left. apply Z.eqb_eq in Erc. subst rc. eauto.
    + match goal with
      | |- context [confirm ?p ?d ?w0] =>
          destruct (confirm_spec p d w0) as (rb & ins & evs & Heq & Hev & Hlen & Hr & _);
          rewrite Heq
      end.
      cbn [stdin] in Hlen.
      assert (Hinv : invocations evs = []).
      { clear - Hev. induction Hev as [|e l [->| ->] _ IH]; [reflexivity| |];
          cbn; exact IH. }
      destruct Hr as [[b ->]|[-> | ->]].
      * destruct b; cbn [negb]; unfold advance; cbn [nruns stdin trace];
          intros [= <- <-]; eexists; cbn [trace nruns stdin];
          rewrite <- ?app_assoc; (split; [reflexivity|]);
          rewrite ?invocations_app, ?Hinv; cbn;
          repeat split; try reflexivity; try discriminate; try lia;
          intros o go [= <- <-]; right; eauto.
      * unfold advance; cbn [nruns stdin trace].
        intros [= <- <-]. eexists. cbn [trace nruns stdin].
        rewrite <- ?app_assoc. split; [reflexivity|].
        rewrite ?invocations_app, ?Hinv. cbn.
        repeat split; try reflexivity; try discriminate; try lia.
      * unfold advance; cbn [nruns stdin trace].
        intros [= <- <-]. eexists. cbn [trace nruns stdin].
        rewrite <- ?app_assoc. split; [reflexivity|].
        rewrite ?invocations_app, ?Hinv. cbn.
        repeat split; try reflexivity; try discriminate; try lia.
Qed.

Lemma batch_loop_spec cfg names : forall acc w r w',
  batch_loop cfg names acc w = (r, w') ->
  exists evs k,
    trace w' = trace w ++ evs
    /\ nruns w' = nruns w + k
    /\ invocations evs = batch_command cfg <$> take k names
    /\ r <> OutOfFuel
    /\ forall o, r = Ok o ->
         exists s f,
           succeeded o = succeeded acc ++ s
           /\ failed o = failed acc ++ f
           /\ s `sublist_of` take k names
           /\ f.*1 `sublist_of` take k names
           /\ length s + length f = k.
Proof.
  induction names as [|name rest IH]; intros acc w r w'.
  - cbn. intros [= <- <-]. exists [], 0. rewrite !app_nil_r.
    repeat split; try discriminate; try lia.
    intros o [= <-]. exists [], []. rewrite !app_nil_r. repeat split; constructor.
  - cbn [batch_loop]. unfold bind at 1.
    destruct (batch_step cfg name acc w) as [r1 w1] eqn:E1.
    destruct (batch_step_spec _ _ _ _ _ _ E1)
      as (evs1 & Htr1 & Hn1 & Hinv1 & _ & Hfuel1 & Hout1).
    destruct r1 as [[o1 go]|e|]; [|intros [= <- <-]..].
    + specialize (Hout1 o1 go eq_refl). cbn [fst snd].
      destruct go.
      * intros Hrest. destruct (IH _ _ _ _ Hrest)
          as (evs2 & k & Htr2 & Hn2 & Hinv2 & Hfuel2 & Hout2).
        exists (evs1 ++ evs2), (S k).
        rewrite Htr2, Htr1, Hn2, Hn1, invocations_app, Hinv1, Hinv2, app_assoc.
        repeat split; try assumption; try lia.
        intros o Ho. destruct (Hout2 o Ho) as (s & f & Hs & Hf & Hss & Hsf & Hk).
        destruct Hout1 as [(-> & _)|[e ->]]; cbn [succeeded failed] in Hs, Hf.
        -- exists (name :: s), f. rewrite Hs, Hf, <- app_assoc.
           repeat split; cbn; try lia.
           ++ apply sublist_skip, Hss.
           ++ apply sublist_cons, Hsf.
        -- exists s, ((name, e) :: f). rewrite Hs, Hf, <- app_assoc.
           repeat split; cbn; try lia.
           ++ apply sublist_cons, Hss.
           ++ apply sublist_skip, Hsf.
      * intros [= <- <-]. exists evs1, 1. rewrite Htr1, Hn1, Hinv1.
        repeat split; try discriminate; try lia.
        intros o [= <-].
        destruct Hout1 as [(_ & [=] & _)|[e ->]].
        exists [], [(name, e)]. cbn. rewrite app_nil_r.
        repeat split; cbn; rewrite ?take_0;
          try apply sublist_nil_l; try reflexivity.
    + exists evs1, 1. rewrite Htr1, Hn1, Hinv1.
      repeat split; try discriminate; try lia.
    + contradiction.
Qed.

Lemma batch_loop_all_ok cfg names rest : forall acc w,
  (forall i name, names !! i = Some name ->
     exists out err,
       subprocess (nruns w + i) (batch_command cfg name) = Exited 0 out err) ->
  exists evs,
    batch_loop cfg (names ++ rest) acc w
    = batch_loop cfg rest
        {| succeeded := succeeded acc ++ names; failed := failed acc |}
        (advance w (length names) (stdin w) evs)
    /\ invocations evs = batch_command cfg <$> names.
Proof.
  induction names as [|name names IH]; intros acc w H.
  - exists []. cbn. unfold advance. rewrite !app_nil_r.
    destruct w, acc; split; reflexivity.
  - destruct (H 0 name eq_refl) as (out & err & H0).
    rewrite Nat.add_0_r in H0.
    cbn [app batch_loop]. unfold bind at 1.
    rewrite (batch_step_success _ _ _ _ _ _ H0). cbn [fst snd].
    edestruct (IH {| succeeded := succeeded acc ++ [name]; failed := failed acc |}
                 (advance w 1 (stdin w)
                    [Print ("Creating application [cyan]" +:+ name
                            +:+ "[/cyan] with path [dim]'"
                            +:+ batch_path name (environment cfg) +:+ "'[/dim]...");
                     Ran (nruns w) (batch_command cfg name) true (Exited 0 out err)]))
      as (evs & Heq & Hinv).
    { intros i n Hi. cbn [advance nruns].
      replace (1 + nruns w + i) with (nruns w + S i) by lia.
      apply (H (S i) n Hi). }
    eexists. rewrite Heq. unfold advance. cbn [nruns stdin trace succeeded failed].
    rewrite <- !app_assoc. cbn [app length].
    replace (length names + (1 + nruns w)) with (S (length names + nruns w)) by lia.
    split; [reflexivity|].
    unfold invocations in *. cbn [omap list_omap ran_command].
    rewrite Hinv. reflexivity.
Qed.

Lemma run_batch_unfold cfg names w :
  run_batch cfg names w =
    match batch_loop cfg names {| succeeded := []; failed := [] |}
            (advance w 0 (stdin w)
               [Print (Py.NL +:+ "[bold]Starting batch creation...[/bold]")]) with
    | (Ok o, w1) =>
        (Ok o, advance w1 0 (stdin w1)
                 [Print (Py.NL +:+ "[bold]Batch Creation Summary[/bold]");
                  PrintTable None summary_headers (summary_rows o);
                  Print (Py.NL +:+ "[bold]Batch processing finished.[/bold]")])
    | (Raise e, w1) => (Raise e, w1)
    | (OutOfFuel, w1) => (OutOfFuel, w1)
    end.
Proof.
  unfold run_batch, bind, print, emit, ret, advance. cbn [nruns stdin trace].
  destruct (batch_loop _ _ _ _) as [[o|e|] w1]; try reflexivity.
  cbn. rewrite <- !app_assoc. reflexivity.
Qed.




(** *** The menu *)

Lemma items_logged_in :
  sorted_menu_items true =
    ["Add Credential Template"; "Add Repository";
     "Check ArgoCD Installation Status"; "Create Application";
     "Create Application Batch"; "Delete Application"; "Install ArgoCD";
     "List Applications"; "List Repositories"; "Uninstall ArgoCD"].
Proof. vm_compute. reflexivity. Qed.

Lemma items_logged_out :
  sorted_menu_items false =
    ["Check ArgoCD Installation Status"; "Install ArgoCD";
     "Login to ArgoCD"; "Uninstall ArgoCD"].
Proof. vm_compute. reflexivity. Qed.

Lemma str_le_total : Total Py.str_le.
Proof. intros a b. unfold Py.str_le. apply String.leb_total. Qed.

Lemma menu_sorted logged_in : Sorted Py.str_le (sorted_menu_items logged_in).
Proof.
  unfold sorted_menu_items, Py.sorted.
  apply Sorted_merge_sort. exact str_le_total.
Qed.

Lemma menu_lookup logged_in label :
  label ∈ sorted_menu_items logged_in
  <-> is_Some (current_menu_text logged_in !! label).
Proof.
  unfold sorted_menu_items, Py.sorted. rewrite merge_sort_Permutation.
  rewrite list_elem_of_fmap. split.
  - intros [[k v] [-> Hin]]. apply elem_of_map_to_list in Hin.
    cbn. rewrite Hin. eauto.
  - intros [v Hv]. exists (label, v). split; [reflexivity|].
    apply elem_of_map_to_list. exact Hv.
Qed.

Lemma menu_nodup logged_in : NoDup (sorted_menu_items logged_in).
Proof.
  unfold sorted_menu_items, Py.sorted. rewrite merge_sort_Permutation.
  apply NoDup_fst_map_to_list.
Qed.

Lemma menu_partition logged_in label :
  label ∈ sorted_menu_items logged_in
  <-> is_Some (setup_options !! label)
      \/ (if logged_in then is_Some (management_options !! label)
          else label = "Login to ArgoCD").
Proof.
  rewrite menu_lookup. unfold current_menu_text. destruct logged_in.
  - rewrite lookup_union_is_Some. tauto.
  - rewrite lookup_insert_is_Some'. split; intros [H|H]; auto.
Qed.

Lemma menu_count logged_in :
  length (valid_choices (sorted_menu_items logged_in))
  = if logged_in then size setup_options + size management_options + 1
    else size setup_options + 1 + 1.
Proof. destruct logged_in; vm_compute; reflexivity. Qed.

Lemma print_all_eq l w :
  print_all l w = (Ok tt, advance w 0 (stdin w) (Print <$> l)).
Proof.
  revert w. induction l as [|s l IH]; intros w.
  - unfold advance. cbn. rewrite app_nil_r. destruct w; reflexivity.
  - cbn [print_all]. unfold bind. rewrite print_eq, IH, advance_advance.
    reflexivity.
Qed.

(** The lookup of an accepted choice, for a choice among the valid ones
    other than the exit entry. *)
Lemma select_valid logged_in choice :
  let items := sorted_menu_items logged_in in
  In choice (valid_choices items) ->
  String.eqb choice (Py.str (length items + 1)) = false ->
  exists n label,
    Py.int choice = Some n
    /\ (forall w, py_index items (n - 1) w = (Ok label, w))
    /\ label ∈ items.
Proof.
  intros items. subst items.
  destruct logged_in; rewrite ?items_logged_in, ?items_logged_out;
    intros Hin Hne; vm_compute in Hin;
    repeat (destruct Hin as [<-|Hin];
            [first [discriminate Hne
                   | eexists _, _; split; [vm_compute; reflexivity|];
                     split; [intros w; reflexivity|];
                     apply list_elem_of_In; cbn; tauto]|]);
    destruct Hin.
Qed.

Lemma choose_action_spec logged_in w r w' :
  choose_action logged_in w = (r, w') ->
  let items := sorted_menu_items logged_in in
  (exists evs,
      trace w' = trace w ++ Print (Py.NL +:+ "[bold]Main Menu[/bold]")
                   :: (Print <$> menu_lines items) ++ evs
      /\ Forall (fun e => prompt_label e <> None ->
                   e = Asked "Choose an action" (Some (Py.str (length items + 1)))
                         (Some (valid_choices items)) false) evs
      /\ invocations evs = [])
  /\ nruns w' = nruns w
  /\ prompt_result r
  /\ forall v, r = Ok (Some v) ->
       exists label, label ∈ items /\ current_menu_text logged_in !! label = Some v.
Proof.
  intros H items.
  unfold choose_action in H. fold items in H.
  erewrite bind_ok in H by apply print_eq.
  erewrite bind_ok in H by apply print_all_eq.
  rewrite advance_advance in H.
  match type of H with
  | bind (ask ?p ?d ?c ?pw) _ ?w0 = _ =>
      destruct (ask_spec p d c pw w0)
        as (ra & ins & evs & Heq & Hev & _ & Hr & _ & Hc)
  end.
  assert (Hev' : Forall (fun e => prompt_label e <> None ->
                   e = Asked "Choose an action" (Some (Py.str (length items + 1)))
                         (Some (valid_choices items)) false) evs).
  { eapply Forall_impl; [exact Hev|]. intros e [-> | ->]; cbn; [auto|].
    intros Hx; contradiction. }
  assert (Hinv : invocations evs = []).
  { clear - Hev. induction Hev as [|e l [->| ->] _ IH]; [reflexivity| |];
      cbn; exact IH. }
  destruct Hr as [[c ->]|[-> | ->]].
  - erewrite bind_ok in H by exact Heq.
    destruct (String.eqb c (Py.str (length items + 1))) eqn:E.
    + erewrite bind_ok in H by apply print_eq.
      rewrite !advance_advance in H. injection H as <- <-.
      split; [|split; [reflexivity|split]].
      * eexists. cbn [advance trace]. rewrite <- ?app_assoc; cbn [app].
        split; [reflexivity|]. split.
        -- apply Forall_app. split; [exact Hev'|].
           constructor; [|constructor]. cbn. intros Hx; contradiction.
        -- rewrite invocations_app, Hinv. reflexivity.
      * left. eauto.
      * discriminate.
    + destruct (Hc c _ eq_refl eq_refl) as [Hin|Hd].
      2:{ injection Hd as <-. rewrite String.eqb_refl in E. discriminate. }
      destruct (select_valid logged_in c Hin E) as (n & label & Hn & Hidx & Hl).
      rewrite Hn in H. erewrite bind_ok in H by reflexivity.
      erewrite bind_ok in H by apply Hidx.
      destruct (proj1 (menu_lookup logged_in label) Hl) as [v Hv].
      rewrite Hv in H. erewrite bind_ok in H by reflexivity.
      injection H as <- <-.
      split; [|split; [reflexivity|split]].
      * eexists. cbn [advance trace]. rewrite <- ?app_assoc; cbn [app].
        split; [reflexivity|]. split; assumption.
      * left. eauto.
      * intros v' [= <-]. eauto.
  - erewrite bind_raise in H by exact Heq. injection H as <- <-.
    split; [|split; [reflexivity|split]].
    + eexists. cbn [advance trace]. rewrite <- ?app_assoc; cbn [app].
      split; [reflexivity|]. split; assumption.
    + right. left. reflexivity.
    + discriminate.
  - erewrite bind_raise in H by exact Heq. injection H as <- <-.
    split; [|split; [reflexivity|split]].
    + eexists. cbn [advance trace]. rewrite <- ?app_assoc; cbn [app].
      split; [reflexivity|]. split; assumption.
    + right. right. reflexivity.
    + discriminate.
Qed.

(** C6: in every turn of the menu loop the items printed are the labels of
    the options valid in that turn (the setup options, with the management
    options when logged in and with the retry entry otherwise), sorted and
    numbered from 1, and the exit entry comes last; the number of valid
    choices is the number of setup options plus the number of management
    options plus one when logged in, and the number of setup options plus
    two otherwise; every prompt of the turn offers the choices computed
    from the items of that turn; and the lookup of the accepted choice
    cannot fail: the turn ends with an option of the menu, with the exit
    entry, or with the end of the input or an interrupt. *)
Theorem menu_is_live (logged_in : bool) (w : world)
    (r : result (option menu_value)) (w' : world) :
  choose_action logged_in w = (r, w') ->
  let items := sorted_menu_items logged_in in
  let exit_line := "[bold]" +:+ Py.str (length items + 1) +:+ ":[/bold] Exit" in
  (Sorted Py.str_le items /\ NoDup items
   /\ forall label,
        label ∈ items
        <-> is_Some (setup_options !! label)
            \/ (if logged_in then is_Some (management_options !! label)
                else label = "Login to ArgoCD"))
  /\ (exists evs,
        trace w' = trace w ++ Print (Py.NL +:+ "[bold]Main Menu[/bold]")
                     :: (Print <$> menu_lines items) ++ evs
        /\ Forall (fun e => prompt_label e <> None ->
                     e = Asked "Choose an action" (Some (Py.str (length items + 1)))
                           (Some (valid_choices items)) false) evs)
  /\ (last (menu_lines items) = Some exit_line
      /\ forall i label, items !! i = Some label ->
           menu_lines items !! i
           = Some ("[bold]" +:+ Py.str (S i) +:+ ":[/bold] " +:+ label))
  /\ length (valid_choices items)
     = (if logged_in then size setup_options + size management_options + 1
        else size setup_options + 1 + 1)
  /\ prompt_result r
  /\ forall v, r = Ok (Some v) ->
       exists label, label ∈ items /\ current_menu_text logged_in !! label = Some v.
Proof.
  intros H items exit_line.
  split; [split; [apply menu_sorted | split; [apply menu_nodup | apply menu_partition]]|].
  destruct (choose_action_spec _ _ _ _ H)
    as ((evs & Htr & Hev & _) & _ & Hres & Hsel).
  split; [exists evs; split; assumption|].
  split.
  { unfold menu_lines. split; [apply last_snoc|].
    intros i label Hi. rewrite lookup_app_l.
    - rewrite list_lookup_imap, Hi. reflexivity.
    - rewrite length_imap. apply lookup_lt_Some in Hi. exact Hi. }
  split; [apply menu_count|]. split; assumption.
Qed.

(** *** Rules for runs *)

Lemma wp_ret {A} (a : A) w Q : Q (Ok a) w -> wp (ret a) w Q.
Proof. exact id. Qed.

Lemma wp_raise {A} e w (Q : result A -> world -> Prop) :
  Q (Raise e) w -> wp (raise e) w Q.
Proof. exact id. Qed.

Lemma wp_bind {A B} (m : M A) (k : A -> M B) w Q :
  wp m w (fun r w1 =>
    match r with
    | Ok a => wp (k a) w1 Q
    | Raise e => Q (Raise e) w1
    | OutOfFuel => Q OutOfFuel w1
    end) ->
  wp (bind m k) w Q.
Proof. unfold wp, bind. destruct (m w) as [[a|e|] w1]; cbn; exact id. Qed.

Lemma wp_try {A} (m : M A) h w Q :
  wp m w (fun r w1 =>
    match r with
    | Raise e =>
        match h e with
        | Some k => wp k w1 Q
        | None => Q (Raise e) w1
        end
    | _ => Q r w1
    end) ->
  wp (try_except m h) w Q.
Proof.
  unfold wp, try_except. destruct (m w) as [[a|e|] w1]; cbn; try exact id.
  destruct (h e); exact id.
Qed.

Lemma wp_emit e w Q :
  Q (Ok tt) (advance w 0 (stdin w) [e]) -> wp (emit e) w Q.
Proof. exact id. Qed.

Lemma wp_run cmd capture check w Q :
  Q (run_result cmd capture check (subprocess (nruns w) cmd))
    (advance w 1 (stdin w)
       [Ran (nruns w) cmd capture (subprocess (nruns w) cmd)]) ->
  wp (run cmd capture check) w Q.
Proof. exact id. Qed.

Lemma wp_ask p d c pw w Q :
  (forall r ins evs,
     Forall (fun e => e = Asked p d c pw
                      \/ e = Print "Please select one of the available options") evs ->
     length ins <= length (stdin w) ->
     prompt_result r ->
     (is_Ok r -> length ins < length (stdin w)) ->
     (forall a cs, r = Ok a -> c = Some cs -> In a cs \/ d = Some a) ->
     Q r (advance w 0 ins evs)) ->
  wp (ask p d c pw) w Q.
Proof.
  intros H. unfold wp.
  destruct (ask_spec p d c pw w) as (r & ins & evs & -> & H1 & H2 & H3 & H4 & H5).
  apply H; assumption.
Qed.

Lemma wp_confirm p d w Q :
  (forall r ins evs,
     Forall (fun e => e = AskedConfirm p d \/ e = Print "Please enter Y or N") evs ->
     length ins <= length (stdin w) ->
     prompt_result r ->
     (is_Ok r -> length ins < length (stdin w)) ->
     Q r (advance w 0 ins evs)) ->
  wp (confirm p d) w Q.
Proof.
  intros H. unfold wp.
  destruct (confirm_spec p d w) as (r & ins & evs & -> & H1 & H2 & H3 & H4).
  apply H; assumption.
Qed.

Lemma wp_mono {A} (m : M A) w (Q Q' : result A -> world -> Prop) :
  wp m w Q -> (forall r w', Q r w' -> Q' r w') -> wp m w Q'.
Proof. unfold wp. auto. Qed.

Lemma wp_run_eq {A} (m : M A) w r w' Q : m w = (r, w') -> wp m w Q -> Q r w'.
Proof. unfold wp. intros ->. exact id. Qed.

(** *** Every operation gives a result *)

Lemma tame_ret {A} (a : A) : tame (ret a).
Proof. intros w. split; [discriminate | reflexivity]. Qed.

Lemma tame_raise {A} e : tame (@raise A e).
Proof. intros w. split; [discriminate | reflexivity]. Qed.

Lemma tame_emit e : tame (emit e).
Proof. intros w. split; [discriminate | reflexivity]. Qed.

Lemma tame_bind {A B} (m : M A) (k : A -> M B) :
  tame m -> (forall a, tame (k a)) -> tame (bind m k).
Proof.
  intros Hm Hk w. apply wp_bind. specialize (Hm w). unfold wp in *.
  destruct (m w) as [[a|e|] w1]; cbn in *; destruct Hm as [Hf Hl].
  - specialize (Hk a w1). unfold wp in Hk. destruct Hk as [Hf' Hl'].
    split; [exact Hf' | lia].
  - split; [discriminate | exact Hl].
  - contradiction.
Qed.

Lemma tame_try {A} (m : M A) h :
  tame m -> (forall e k, h e = Some k -> tame k) -> tame (try_except m h).
Proof.
  intros Hm Hh w. apply wp_try. specialize (Hm w). unfold wp in *.
  destruct (m w) as [[a|e|] w1]; cbn in *; destruct Hm as [Hf Hl].
  - split; [discriminate | exact Hl].
  - destruct (h e) as [k|] eqn:E.
    + specialize (Hh e k E w1). unfold wp in Hh. destruct Hh as [Hf' Hl'].
      split; [exact Hf' | lia].
    + split; [discriminate | exact Hl].
  - contradiction.
Qed.

Lemma tame_run cmd c chk : tame (run cmd c chk).
Proof.
  intros w. unfold wp, run, run_result. cbn.
  split; [|reflexivity].
  destruct (subprocess (nruns w) cmd); [discriminate|].
  destruct (chk && negb (returncode0 =? 0)%Z); discriminate.
Qed.

Lemma prompt_result_fuel {A} (r : result A) : prompt_result r -> r <> OutOfFuel.
Proof. intros [[a ->]|[-> | ->]]; discriminate. Qed.

Lemma tame_ask p d c pw : tame (ask p d c pw).
Proof.
  intros w. apply wp_ask. intros r ins evs _ Hl Hr _ _.
  split; [apply prompt_result_fuel, Hr | exact Hl].
Qed.

Lemma tame_confirm p d : tame (confirm p d).
Proof.
  intros w. apply wp_confirm. intros r ins evs _ Hl Hr _.
  split; [apply prompt_result_fuel, Hr | exact Hl].
Qed.

Lemma consuming_ask p d c pw : consuming (ask p d c pw).
Proof. intros w. apply wp_ask. intros r ins evs _ _ _ H _. exact H. Qed.

Lemma consuming_bind_l {A B} (m : M A) (k : A -> M B) :
  consuming m -> (forall a, tame (k a)) -> consuming (bind m k).
Proof.
  intros Hm Hk w. apply wp_bind. specialize (Hm w). unfold wp in *.
  destruct (m w) as [[a|e|] w1]; cbn in *.
  - specialize (Hk a w1). unfold wp in Hk. destruct Hk as [_ Hl].
    intros _. assert (length (stdin w1) < length (stdin w))
      by (apply Hm; eexists; reflexivity). lia.
  - intros [x Hx]; discriminate.
  - intros [x Hx]; discriminate.
Qed.

Lemma consuming_bind_r {A B} (m : M A) (k : A -> M B) :
  tame m -> (forall a, consuming (k a)) -> consuming (bind m k).
Proof.
  intros Hm Hk w. apply wp_bind. specialize (Hm w). unfold wp in *.
  destruct (m w) as [[a|e|] w1]; cbn in *.
  - specialize (Hk a w1). unfold wp in Hk. destruct Hm as [_ Hl].
    intros H. specialize (Hk H). lia.
  - intros [x Hx]; discriminate.
  - intros [x Hx]; discriminate.
Qed.

Lemma tame_lift {A} (x : exn + A) : tame (lift x).
Proof. destruct x; [apply tame_raise | apply tame_ret]. Qed.

Lemma tame_loads s : tame (loads s).
Proof.
  destruct s as [s|]; cbn; [|apply tame_raise].
  destruct (json_loads s); [apply tame_ret | apply tame_raise].
Qed.

Lemma tame_print_all l : tame (print_all l).
Proof.
  induction l; cbn; [apply tame_ret|].
  apply tame_bind; [apply tame_emit | intros _; assumption].
Qed.

Lemma tame_py_index {A} (l : list A) i : tame (py_index l i).
Proof.
  unfold py_index.
  destruct (_ <? 0)%Z; [apply tame_raise|].
  destruct (l !! _); [apply tame_ret | apply tame_raise].
Qed.

(** The structural steps of a proof that an operation is tame. *)
Ltac tame_step :=
  match goal with
  | |- tame (bind _ _) => apply tame_bind; [|intros ?]
  | |- tame (try_except _ _) =>
      apply tame_try; [|intros [] ? [= <-]]
  | |- tame (ret _) => apply tame_ret
  | |- tame (raise _) => apply tame_raise
  | |- tame (sys_exit _) => apply tame_raise
  | |- tame (emit _) => apply tame_emit
  | |- tame (print _) => apply tame_emit
  | |- tame (log_info _) => apply tame_emit
  | |- tame (log_error _) => apply tame_emit
  | |- tame (run _ _ _) => apply tame_run
  | |- tame (ask _ _ _ _) => apply tame_ask
  | |- tame (confirm _ _) => apply tame_confirm
  | |- tame (lift _) => apply tame_lift
  | |- tame (loads _) => apply tame_loads
  | |- tame (print_all _) => apply tame_print_all
  | |- tame (py_index _ _) => apply tame_py_index
  | |- tame (if ?b then _ else _) => destruct b
  | |- tame (match ?x with _ => _ end) => destruct x
  end.

Ltac tame_auto := repeat tame_step.

Lemma tame_kubectl_missing : tame kubectl_missing.
Proof. unfold kubectl_missing. tame_auto. Qed.

Lemma tame_install_argocd : tame install_argocd.
Proof. unfold install_argocd. tame_auto; apply tame_kubectl_missing. Qed.

Lemma tame_check_installation_status : tame check_installation_status.
Proof. unfold check_installation_status. tame_auto; apply tame_kubectl_missing. Qed.

Lemma tame_delete_argocd_installation : tame delete_argocd_installation.
Proof. unfold delete_argocd_installation. tame_auto; apply tame_kubectl_missing. Qed.

Lemma tame_list_repositories : tame list_repositories.
Proof. unfold list_repositories. tame_auto. Qed.

Lemma tame_add_credential_template : tame add_credential_template.
Proof. unfold add_credential_template. tame_auto. Qed.

Lemma tame_add_repository : tame add_repository.
Proof. unfold add_repository. tame_auto. Qed.

Lemma tame_sync_options sfx : tame (sync_options sfx).
Proof. unfold sync_options. tame_auto. Qed.

Lemma tame_create_application : tame create_application.
Proof.
  unfold create_application.
  repeat first [apply tame_sync_options | tame_step].
Qed.

Lemma tame_list_applications : tame list_applications.
Proof. unfold list_applications. tame_auto. Qed.

Lemma tame_delete_application : tame delete_application.
Proof. unfold delete_application. tame_auto. Qed.

Lemma tame_batch_step cfg name acc : tame (batch_step cfg name acc).
Proof. unfold batch_step. tame_auto. Qed.

Lemma tame_batch_loop cfg names : forall acc, tame (batch_loop cfg names acc).
Proof.
  induction names as [|name rest IH]; intros acc; cbn [batch_loop].
  - apply tame_ret.
  - apply tame_bind; [apply tame_batch_step|].
    intros [o go]. cbn [fst snd]. destruct go; [apply IH | apply tame_ret].
Qed.

Lemma tame_run_batch cfg names : tame (run_batch cfg names).
Proof.
  unfold run_batch. repeat first [apply tame_batch_loop | tame_step].
Qed.

Lemma tame_ask_batch_config : tame ask_batch_config.
Proof.
  unfold ask_batch_config. repeat first [apply tame_sync_options | tame_step].
Qed.

Lemma tame_create_application_batch : tame create_application_batch.
Proof.
  unfold create_application_batch.
  apply tame_bind; [tame_auto|intros _].
  apply tame_bind; [tame_auto|intros s].
  destruct (parse_app_names s); [tame_auto|].
  apply tame_bind; [apply tame_ask_batch_config|intros cfg].
  apply tame_bind; [apply tame_run_batch|intros _]. apply tame_ret.
Qed.

Lemma tame_startup_attempt h p u pw i : tame (startup_attempt h p u pw i).
Proof. unfold startup_attempt. tame_auto. Qed.

Lemma tame_retry_attempt h p u pw i : tame (retry_attempt h p u pw i).
Proof. unfold retry_attempt. tame_auto. Qed.

Lemma tame_getenv_or k m : tame m -> tame (getenv_or k m).
Proof.
  intros H. unfold getenv_or. destruct (getenv k) as [v|]; [|exact H].
  destruct (Py.truthy v); [apply tame_ret | exact H].
Qed.

Lemma tame_login_to_argocd : tame login_to_argocd.
Proof.
  unfold login_to_argocd.
  repeat first [apply tame_startup_attempt
               | apply tame_getenv_or; apply tame_ask
               | tame_step].
Qed.

Lemma tame_prompt_and_login : tame prompt_and_login.
Proof.
  unfold prompt_and_login.
  repeat first [apply tame_retry_attempt | tame_step].
Qed.

Lemma consuming_prompt_and_login : consuming prompt_and_login.
Proof.
  unfold prompt_and_login.
  apply consuming_bind_r; [apply tame_emit|intros _].
  apply consuming_bind_l; [apply consuming_ask|intros h].
  repeat first [apply tame_retry_attempt | tame_step].
Qed.

(** *** The loops end *)

Lemma tame_consuming_wp {A} (m : M A) w :
  tame m -> consuming m ->
  wp m w (fun r w' =>
    r <> OutOfFuel
    /\ length (stdin w') <= length (stdin w)
    /\ (is_Ok r -> length (stdin w') < length (stdin w))).
Proof.
  intros Ht Hc. specialize (Ht w). specialize (Hc w). unfold wp in *.
  destruct Ht. auto.
Qed.

Lemma login_retry_loop_ends fuel logged_in : forall w,
  length (stdin w) < fuel ->
  wp (login_retry_loop fuel logged_in) w (fun r w' =>
    r <> OutOfFuel /\ length (stdin w') <= length (stdin w)).
Proof.
  induction fuel as [|fuel IH]; intros w Hf; [lia|].
  cbn [login_retry_loop]. apply wp_bind.
  eapply wp_mono;
    [apply tame_consuming_wp;
       [apply tame_prompt_and_login | apply consuming_prompt_and_login]|].
  intros r w1 (Hfuel & Hlen & Hok). cbn beta.
  destruct r as [success|e|]; [|split; [discriminate|exact Hlen]|contradiction].
  assert (Hlt : length (stdin w1) < length (stdin w))
    by (apply Hok; eexists; reflexivity).
  destruct success; cbn beta iota.
  - apply wp_ret. split; [discriminate | lia].
  - apply wp_bind, wp_confirm. intros r ins evs _ Hl Hr _.
    destruct Hr as [[again ->]|[-> | ->]];
      [|split; [discriminate | rewrite stdin_advance; lia]..].
    destruct again; cbn [negb].
    + eapply wp_mono; [apply IH; rewrite stdin_advance; lia|].
      intros r w' [H1 H2]. rewrite stdin_advance in H2. split; [exact H1 | lia].
    + apply wp_ret. split; [discriminate | rewrite stdin_advance; lia].
Qed.

Lemma tame_login_retry logged_in : tame (login_retry logged_in).
Proof.
  intros w. unfold login_retry.
  apply (login_retry_loop_ends (S (length (stdin w))) logged_in w). lia.
Qed.

Lemma menu_values_tame logged_in label v :
  current_menu_text logged_in !! label = Some v -> value_tame v.
Proof.
  revert label v. change (map_Forall (fun _ => value_tame) (current_menu_text logged_in)).
  assert (Hs : map_Forall (fun _ : string => value_tame) setup_options).
  { unfold setup_options.
    repeat (apply map_Forall_insert_2; [cbn|]); try apply map_Forall_empty.
    - apply tame_check_installation_status.
    - apply tame_install_argocd.
    - apply tame_delete_argocd_installation. }
  unfold current_menu_text. destruct logged_in.
  - apply map_Forall_union_2; [|exact Hs]. unfold management_options.
    repeat (apply map_Forall_insert_2; [cbn|]); try apply map_Forall_empty.
    + apply tame_add_credential_template.
    + apply tame_add_repository.
    + apply tame_create_application.
    + apply tame_create_application_batch.
    + apply tame_delete_application.
    + apply tame_list_applications.
    + apply tame_list_repositories.
  - apply map_Forall_insert_2; [exact I | exact Hs].
Qed.

Lemma tame_choose_action logged_in : tame (choose_action logged_in).
Proof.
  unfold choose_action. tame_auto.
Qed.

Lemma consuming_choose_action logged_in : consuming (choose_action logged_in).
Proof.
  unfold choose_action.
  apply consuming_bind_r; [apply tame_emit|intros _].
  apply consuming_bind_r; [apply tame_print_all|intros _].
  apply consuming_bind_l; [apply consuming_ask|intros c].
  tame_auto.
Qed.

(** A turn of the menu loop gives a result, and if it does not end the loop
    it has read a line. *)
Lemma menu_iteration_ends logged_in w :
  wp (menu_iteration logged_in) w (fun r w' =>
    r <> OutOfFuel
    /\ length (stdin w') <= length (stdin w)
    /\ (is_Ok r -> length (stdin w') < length (stdin w))).
Proof.
  unfold menu_iteration. apply wp_bind.
  pose proof (tame_consuming_wp _ w (tame_choose_action logged_in)
                (consuming_choose_action logged_in)) as Ht.
  destruct (choose_action logged_in w) as [r w1] eqn:E.
  destruct (choose_action_spec _ _ _ _ E) as (_ & _ & _ & Hsel).
  unfold wp in Ht |- *. rewrite E in *. cbn [fst snd] in *.
  destruct Ht as (Hfuel & Hlen & Hok).
  destruct r as [[v|]|e|]; [| | |contradiction].
  - assert (Hlt : length (stdin w1) < length (stdin w))
      by (apply Hok; eexists; reflexivity).
    destruct (Hsel v eq_refl) as (label & _ & Hv).
    apply menu_values_tame in Hv.
    assert (Hgen : forall (m : M (option bool)), tame m ->
      (m w1).1 <> OutOfFuel
      /\ length (stdin (m w1).2) <= length (stdin w)
      /\ (is_Ok (m w1).1 -> length (stdin (m w1).2) < length (stdin w))).
    { intros m Hm. specialize (Hm w1). unfold wp in Hm. destruct Hm as [H1 H2].
      repeat split; [exact H1 | lia | intros _; lia]. }
    destruct v as [f|s]; cbn [value_tame] in Hv.
    + apply Hgen. apply tame_bind; [exact Hv | intros _; apply tame_ret].
    + apply Hgen. destruct (String.eqb s "login_retry").
      * apply tame_bind; [apply tame_login_retry | intros b; apply tame_ret].
      * apply tame_raise.
  - assert (Hlt : length (stdin w1) < length (stdin w))
      by (apply Hok; eexists; reflexivity).
    cbn [ret fst snd].
    repeat split; [discriminate | lia | intros _; lia].
  - repeat split; [discriminate | exact Hlen | intros [x Hx]; discriminate].
Qed.

Lemma menu_loop_ends fuel : forall logged_in w,
  length (stdin w) < fuel ->
  wp (menu_loop fuel logged_in) w (fun r w' => r <> OutOfFuel).
Proof.
  induction fuel as [|fuel IH]; intros logged_in w Hf; [lia|].
  cbn [menu_loop]. apply wp_bind.
  eapply wp_mono; [apply menu_iteration_ends|].
  intros r w1 (Hfuel & Hlen & Hok). cbn beta.
  destruct r as [[b|]|e|]; [| |discriminate|contradiction].
  - apply IH. assert (length (stdin w1) < length (stdin w))
      by (apply Hok; eexists; reflexivity). lia.
  - discriminate.
Qed.

Lemma guarded_menu_loop_ends logged_in w :
  (guarded_menu_loop logged_in w).1 <> OutOfFuel.
Proof.
  unfold guarded_menu_loop.
  pose proof (menu_loop_ends (S (length (stdin w))) logged_in w
                (Nat.lt_succ_diag_r _)) as H.
  unfold wp in H. unfold try_except.
  destruct (menu_loop _ _ w) as [[[]|e|] w1]; cbn in *;
    [discriminate| |contradiction].
  unfold main_handler.
  destruct e; cbn; discriminate.
Qed.

(** The program gives a result on every input: [main] never runs out of
    the fuel given to its loops. *)
Lemma main_ends w : (main w).1 <> OutOfFuel.
Proof.
  unfold main, bind. cbn.
  pose proof (tame_login_to_argocd
                (advance w 0 (stdin w)
                   [Print "[bold cyan]Welcome to the ArgoCD Interactive CLI[/bold cyan]"]))
    as H.
  unfold wp, advance in H. cbn in H.
  destruct (login_to_argocd _) as [[b|e|] w1]; cbn in *;
    destruct H as [H _]; [|discriminate|contradiction].
  apply guarded_menu_loop_ends.
Qed.

(** *** The authenticated flag *)

Lemma bind_Ok_inv {A B} (m : M A) (k : A -> M B) w b w' :
  bind m k w = (Ok b, w') ->
  exists a w1, m w = (Ok a, w1) /\ k a w1 = (Ok b, w').
Proof.
  unfold bind. destruct (m w) as [[a|e|] w1]; try discriminate. eauto.
Qed.

Lemma startup_attempt_true h p u pw i w w' :
  startup_attempt h p u pw i w = (Ok true, w') ->
  login_succeeded_last (trace w').
Proof.
  unfold startup_attempt, try_except, bind, run, run_result, print, log_info,
    log_error, emit, ret, sys_exit, raise.
  cbn [nruns stdin trace].
  destruct (subprocess _ _) as [|rc out err]; cbn; [discriminate|].
  destruct (rc =? 0)%Z eqn:E; cbn; [|discriminate].
  apply Z.eqb_eq in E. subst rc.
  intros [= <-]. cbn [trace]. rewrite <- !app_assoc. cbn [app].
  unfold login_succeeded_last.
  eexists (trace w ++ [_]), _, h, p, u, pw, i, _, _.
  rewrite <- app_assoc. reflexivity.
Qed.

Lemma retry_attempt_true h p u pw i w w' :
  retry_attempt h p u pw i w = (Ok true, w') ->
  login_succeeded_last (trace w').
Proof.
  unfold retry_attempt, try_except, bind, run, run_result, print, log_info,
    log_error, emit, ret, sys_exit, raise.
  cbn [nruns stdin trace].
  destruct (subprocess _ _) as [|rc out err]; cbn; [discriminate|].
  destruct (rc =? 0)%Z eqn:E; cbn; [|discriminate].
  apply Z.eqb_eq in E. subst rc.
  intros [= <-]. cbn [trace]. rewrite <- !app_assoc. cbn [app].
  unfold login_succeeded_last.
  eexists (trace w ++ [_]), _, h, p, u, pw, i, _, _.
  rewrite <- app_assoc. reflexivity.
Qed.

Lemma login_to_argocd_true w w' :
  login_to_argocd w = (Ok true, w') -> login_succeeded_last (trace w').
Proof.
  unfold login_to_argocd. intros H.
  do 4 (apply bind_Ok_inv in H; destruct H as (? & ? & _ & H)).
  apply startup_attempt_true in H. exact H.
Qed.

Lemma prompt_and_login_true w w' :
  prompt_and_login w = (Ok true, w') -> login_succeeded_last (trace w').
Proof.
  unfold prompt_and_login. intros H.
  do 6 (apply bind_Ok_inv in H; destruct H as (? & ? & _ & H)).
  apply retry_attempt_true in H. exact H.
Qed.

Lemma login_retry_loop_flag fuel logged_in : forall w next w',
  login_retry_loop fuel logged_in w = (Ok next, w') ->
  next = logged_in \/ (next = true /\ login_succeeded_last (trace w')).
Proof.
  induction fuel as [|fuel IH]; intros w next w' H; [discriminate|].
  cbn [login_retry_loop] in H.
  apply bind_Ok_inv in H. destruct H as (success & w1 & Hlogin & H).
  destruct success.
  - injection H as <- <-. right. split; [reflexivity|].
    apply prompt_and_login_true in Hlogin. exact Hlogin.
  - apply bind_Ok_inv in H. destruct H as (again & w2 & _ & H).
    destruct again; cbn [negb] in H.
    + apply IH in H. exact H.
    + injection H as <- <-. left. reflexivity.
Qed.

Lemma menu_iteration_flag logged_in w next w' :
  menu_iteration logged_in w = (Ok (Some next), w') ->
  next = logged_in \/ (next = true /\ login_succeeded_last (trace w')).
Proof.
  unfold menu_iteration. intros H.
  apply bind_Ok_inv in H. destruct H as (selected & w1 & _ & H).
  destruct selected as [[f|s]|]; [| |discriminate].
  - apply bind_Ok_inv in H. destruct H as (? & w2 & _ & H).
    injection H as <- <-. left. reflexivity.
  - destruct (String.eqb s "login_retry"); [|discriminate].
    apply bind_Ok_inv in H. destruct H as (b & w2 & Hretry & H).
    injection H as <- <-. unfold login_retry in Hretry.
    apply login_retry_loop_flag in Hretry. exact Hretry.
Qed.

(** C7: the flag that tells whether the session is authenticated is true at
    the start only when the login attempt of the startup ended with a login
    invocation that succeeded, and a turn of the menu loop that finds it
    false leaves it true only when the turn ended with such an invocation;
    a turn that finds it true leaves it true. *)
Theorem authenticated_only_after_login (w0 w1 : world) (initial : bool)
    (logged_in next : bool) (w w' : world) :
  login_to_argocd w0 = (Ok initial, w1) ->
  menu_iteration logged_in w = (Ok (Some next), w') ->
  (initial = true -> login_succeeded_last (trace w1))
  /\ (logged_in = true -> next = true)
  /\ (logged_in = false -> next = true -> login_succeeded_last (trace w')).
Proof.
  intros Hstart Hturn. split; [|split].
  - intros ->. apply (login_to_argocd_true _ _ Hstart).
  - intros ->. destruct (menu_iteration_flag _ _ _ _ Hturn) as [->|[-> _]];
      reflexivity.
  - intros -> ->. destruct (menu_iteration_flag _ _ _ _ Hturn) as [H|[_ H]];
      [discriminate | exact H].
Qed.

(** *** The startup login *)

Lemma advance_nil w : advance w 0 (stdin w) [] = w.
Proof. unfold advance. rewrite app_nil_r. destruct w; reflexivity. Qed.

Lemma ask_once p d pw w :
  exists r ins,
    ask p d None pw w = (r, advance w 0 ins [Asked p d None pw])
    /\ prompt_result r.
Proof.
  unfold ask, advance. destruct (stdin w) as [|[v|] ins]; cbn [ask_loop].
  - exists (Raise EOFError), []. split; [reflexivity | right; left; reflexivity].
  - assert (H : exists a,
      (match v, d with
       | "", Some d0 => (Ok d0, (ins, trace w ++ [Asked p d None pw]))
       | _, _ => (Ok (Py.strip v), (ins, trace w ++ [Asked p d None pw]))
       end : result string * (list input * list event))
      = (Ok a, (ins, trace w ++ [Asked p d None pw]))).
    { destruct v, d; eauto. }
    destruct H as [a ->]. exists (Ok a), ins.
    split; [reflexivity | left; eauto].
  - exists (Raise KeyboardInterrupt), ins.
    split; [reflexivity | right; right; reflexivity].
Qed.

Lemma getenv_or_env k m :
  getenv_or k m = match env_value k with Some v => ret v | None => m end.
Proof.
  unfold getenv_or, env_value. destruct (getenv k) as [v|]; [|reflexivity].
  destruct (Py.truthy v); reflexivity.
Qed.

Lemma wp_stage f p d pw w Q :
  startup_prompt f = Some p ->
  (forall r ins evs,
     prompt_result r ->
     prompts evs = expected_prompts [f] ->
     invocations evs = [] ->
     (forall v x, r = Ok v -> env_value (env_key f) = Some x -> v = x) ->
     Q r (advance w 0 ins evs)) ->
  wp (getenv_or (env_key f) (ask p d None pw)) w Q.
Proof.
  intros Hp H. rewrite getenv_or_env. unfold wp.
  destruct (env_value (env_key f)) as [x|] eqn:E.
  - cbn [ret fst snd]. rewrite <- (advance_nil w). apply H.
    + left. eauto.
    + unfold expected_prompts. cbn. rewrite E. reflexivity.
    + reflexivity.
    + intros v y [= <-] [= <-]. reflexivity.
  - destruct (ask_once p d pw w) as (r & ins & -> & Hr). cbn [fst snd].
    apply H; try assumption.
    + unfold expected_prompts. cbn. rewrite E, Hp. reflexivity.
    + reflexivity.
    + discriminate.
Qed.

Lemma startup_attempt_spec h p u pw i w :
  exists r evs,
    startup_attempt h p u pw i w = (r, advance w 1 (stdin w) evs)
    /\ prompts evs = []
    /\ invocations evs = [login_command h p u pw i].
Proof.
  unfold startup_attempt, try_except, bind, run, run_result, print, log_info,
    log_error, emit, ret, sys_exit, raise, advance.
  cbn [nruns stdin trace].
  destruct (subprocess _ _) as [|rc out err]; cbn.
  - eexists _, _. rewrite <- !app_assoc. cbn [app].
    split; [reflexivity|]. split; reflexivity.
  - destruct (rc =? 0)%Z; cbn; eexists _, _; rewrite <- !app_assoc; cbn [app];
      (split; [reflexivity|]); split; reflexivity.
Qed.

Lemma expected_prompts_app fs1 fs2 :
  expected_prompts (fs1 ++ fs2) = expected_prompts fs1 ++ expected_prompts fs2.
Proof. unfold expected_prompts. apply omap_app. Qed.

Lemma startup_prompts_split :
  startup_prompts
  = expected_prompts [Host] ++ expected_prompts [Port]
    ++ expected_prompts [Username] ++ expected_prompts [Password].
Proof.
  unfold startup_prompts.
  change [Host; Port; Username; Password]
    with ([Host] ++ [Port] ++ [Username] ++ [Password]).
  rewrite !expected_prompts_app. reflexivity.
Qed.

(** The prompts and the invocation of the startup login. *)
Lemma login_to_argocd_spec w :
  wp login_to_argocd w (fun r w' =>
    exists evs,
      trace w' = trace w ++ evs
      /\ prompts evs `prefix_of` startup_prompts
      /\ (invocations evs <> [] ->
          prompts evs = startup_prompts
          /\ exists host port username password,
               invocations evs
               = [login_command host port username password env_insecure]
               /\ (forall v, env_value "ARGO_HOST" = Some v -> host = v)
               /\ (forall v, env_value "ARGO_PORT" = Some v -> port = v)
               /\ (forall v, env_value "ARGO_USERNAME" = Some v -> username = v)
               /\ (forall v, env_value "ARGO_PASSWORD" = Some v -> password = v))).
Proof.
  unfold login_to_argocd. rewrite startup_prompts_split.
  apply wp_bind, (wp_stage Host); [reflexivity|].
  intros r1 ins1 evs1 Hr1 Hp1 Hi1 Hv1.
  destruct Hr1 as [[host ->]|Hr1].
  2:{ assert (Hleaf : forall r : result string, r = Raise EOFError \/ r = Raise KeyboardInterrupt ->
        match r with
        | Ok a => True
        | _ => exists evs, trace (advance w 0 ins1 evs1) = trace w ++ evs
                 /\ prompts evs `prefix_of`
                      expected_prompts [Host] ++ expected_prompts [Port]
                      ++ expected_prompts [Username] ++ expected_prompts [Password]
                 /\ (invocations evs <> [] -> False)
        end).
      { intros r [-> | ->]; exists evs1; (split; [reflexivity|]);
          rewrite Hp1, Hi1; (split; [eexists; reflexivity | intros H; apply H; reflexivity]). }
      specialize (Hleaf r1 Hr1). destruct Hr1 as [-> | ->];
        destruct Hleaf as (evs & H1 & H2 & H3); exists evs;
        (split; [exact H1|]); (split; [exact H2|]); intros H; destruct (H3 H). }
  apply wp_bind, (wp_stage Port); [reflexivity|].
  intros r2 ins2 evs2 Hr2 Hp2 Hi2 Hv2. rewrite advance_advance.
  destruct Hr2 as [[port ->]|Hr2].
  2:{ destruct Hr2 as [-> | ->]; exists (evs1 ++ evs2);
        (split; [reflexivity|]); rewrite prompts_app, invocations_app, Hp1, Hp2, Hi1, Hi2;
        (split; [exists (expected_prompts [Username] ++ expected_prompts [Password]);
                 rewrite <- !app_assoc; reflexivity
                | intros H; exfalso; apply H; reflexivity]). }
  apply wp_bind, (wp_stage Username); [reflexivity|].
  intros r3 ins3 evs3 Hr3 Hp3 Hi3 Hv3. rewrite advance_advance.
  destruct Hr3 as [[username ->]|Hr3].
  2:{ destruct Hr3 as [-> | ->]; exists ((evs1 ++ evs2) ++ evs3);
        (split; [reflexivity|]);
        rewrite !prompts_app, !invocations_app, Hp1, Hp2, Hp3, Hi1, Hi2, Hi3;
        (split; [exists (expected_prompts [Password]);
                 rewrite <- !app_assoc; reflexivity
                | intros H; exfalso; apply H; reflexivity]). }
  apply wp_bind, (wp_stage Password); [reflexivity|].
  intros r4 ins4 evs4 Hr4 Hp4 Hi4 Hv4. rewrite advance_advance.
  destruct Hr4 as [[password ->]|Hr4].
  2:{ destruct Hr4 as [-> | ->]; exists (((evs1 ++ evs2) ++ evs3) ++ evs4);
        (split; [reflexivity|]);
        rewrite !prompts_app, !invocations_app, Hp1, Hp2, Hp3, Hp4, Hi1, Hi2, Hi3, Hi4;
        (split; [exists []; rewrite <- !app_assoc, app_nil_r; reflexivity
                | intros H; exfalso; apply H; reflexivity]). }
  cbn beta iota zeta. unfold wp.
  destruct (startup_attempt_spec host port username password env_insecure
              (advance w (0 + (0 + (0 + 0))) ins4 (((evs1 ++ evs2) ++ evs3) ++ evs4)))
    as (r & evs5 & -> & Hp5 & Hi5).
  cbn [fst snd]. rewrite advance_advance.
  exists ((((evs1 ++ evs2) ++ evs3) ++ evs4) ++ evs5).
  split; [reflexivity|].
  rewrite !prompts_app, !invocations_app, Hp1, Hp2, Hp3, Hp4, Hp5, Hi1, Hi2, Hi3, Hi4, Hi5.
  rewrite app_nil_r, <- !app_assoc. cbn [app].
  split; [reflexivity|]. intros _. split; [reflexivity|].
  exists host, port, username, password.
  repeat split; intros v Hv; [eapply Hv1|eapply Hv2|eapply Hv3|eapply Hv4];
    try reflexivity; exact Hv.
Qed.

Lemma prompt_field_startup f label :
  startup_prompt f = Some label -> prompt_field label = f.
Proof. destruct f; intros [= <-]; reflexivity. Qed.

Lemma in_startup_prompts label :
  label ∈ startup_prompts ->
  exists f, f <> Insecure /\ env_value (env_key f) = None
            /\ startup_prompt f = Some label.
Proof.
  unfold startup_prompts, expected_prompts. rewrite list_elem_of_omap.
  intros (f & Hf & Hlabel). exists f.
  destruct (env_value (env_key f)); [discriminate|].
  repeat split; [|exact Hlabel]. intros ->. discriminate.
Qed.

Lemma startup_prompts_in f label :
  f <> Insecure -> env_value (env_key f) = None ->
  startup_prompt f = Some label -> label ∈ startup_prompts.
Proof.
  intros Hf He Hl. unfold startup_prompts, expected_prompts.
  rewrite list_elem_of_omap. exists f. rewrite He. split; [|exact Hl].
  destruct f; try contradiction; apply list_elem_of_In; cbn; tauto.
Qed.


(** *** An executable that cannot be located *)

Ltac nf_leaf :=
  unfold after_attempt; cbn [nruns advance]; intros ?;
  first [lia | split; [reflexivity | lia]].

Ltac nf_step Hm :=
  cbn beta iota zeta;
  match goal with
  | |- wp (bind _ _) _ _ => apply wp_bind
  | |- wp (try_except _ _) _ _ => apply wp_try
  | |- wp (ret _) _ _ => apply wp_ret
  | |- wp (raise _) _ _ => apply wp_raise
  | |- wp (sys_exit _) _ _ => apply wp_raise
  | |- wp (emit _) _ _ => apply wp_emit
  | |- wp (print _) _ _ => apply wp_emit
  | |- wp (log_info _) _ _ => apply wp_emit
  | |- wp (log_error _) _ _ => apply wp_emit
  | |- wp kubectl_missing _ _ => unfold kubectl_missing
  | |- wp (sync_options _) _ _ => unfold sync_options
  | |- wp ask_batch_config _ _ => unfold ask_batch_config
  | |- wp (run_batch _ _) _ _ => unfold run_batch
  | |- wp (batch_loop _ (_ :: _) _) _ _ => cbn [batch_loop]
  | |- wp (batch_step _ _ _) _ _ => unfold batch_step
  | |- wp (startup_attempt _ _ _ _ _) _ _ => unfold startup_attempt
  | |- wp (retry_attempt _ _ _ _ _) _ _ => unfold retry_attempt
  | |- wp (getenv_or _ _) _ _ => unfold getenv_or
  | |- wp (ask _ _ _ _) _ _ =>
      apply wp_ask; intros ? ? ? _ _ [[? ->]|[-> | ->]] _ _
  | |- wp (confirm _ _) _ _ =>
      apply wp_confirm; intros ? ? ? _ _ [[? ->]|[-> | ->]] _
  | |- wp (run _ _ _) _ _ =>
      apply wp_run;
      unfold batch_command, app_create_command, repo_list_command,
        app_list_command, login_command; cbn [app];
      rewrite Hm by (cbn [nruns advance]; lia); cbn [run_result]
  | |- wp (if ?b then _ else _) _ _ => destruct b
  | |- wp (match ?x with _ => _ end) _ _ => destruct x
  | |- after_attempt _ _ _ _ => nf_leaf
  end.

Ltac nf_auto Hm := repeat nf_step Hm.

Lemma startup_not_found w :
  missing "argocd" (nruns w) ->
  wp login_to_argocd w (after_attempt (nruns w) (Raise (SystemExit 1))).
Proof. intros Hm. unfold login_to_argocd. nf_auto Hm. Qed.

Lemma retry_not_found w :
  missing "argocd" (nruns w) ->
  wp prompt_and_login w (after_attempt (nruns w) (Raise FileNotFoundError)).
Proof. intros Hm. unfold prompt_and_login. nf_auto Hm. Qed.

Lemma kubectl_not_found op w :
  In op kubectl_operations ->
  missing "kubectl" (nruns w) ->
  wp op w (after_attempt (nruns w) (Ok tt)).
Proof.
  intros Hop Hm. cbn in Hop.
  destruct Hop as [<-|[<-|[<-|[]]]].
  - unfold check_installation_status. nf_auto Hm.
  - unfold install_argocd. nf_auto Hm.
  - unfold delete_argocd_installation. nf_auto Hm.
Qed.

Lemma argocd_not_found op w :
  In op argocd_operations ->
  missing "argocd" (nruns w) ->
  wp op w (after_attempt (nruns w) (Raise FileNotFoundError)).
Proof.
  intros Hop Hm. cbn in Hop.
  destruct Hop as [<-|[<-|[<-|[<-|[<-|[<-|[<-|[]]]]]]]].
  - unfold add_credential_template. nf_auto Hm.
  - unfold add_repository. nf_auto Hm.
  - unfold create_application. nf_auto Hm.
  - unfold create_application_batch. nf_auto Hm.
  - unfold delete_application. nf_auto Hm.
  - unfold list_applications. nf_auto Hm.
  - unfold list_repositories. nf_auto Hm.
Qed.

Lemma not_found_exits logged_in w w1 :
  menu_iteration logged_in w = (Raise FileNotFoundError, w1) ->
  guarded_menu_loop logged_in w
  = (Raise (SystemExit 1),
     advance w1 0 (stdin w1)
       [Logged ERROR ("An unexpected error occurred in the main loop: "
                      +:+ exn_str FileNotFoundError);
        Print (Py.NL +:+ "[bold red]An unexpected error occurred: "
               +:+ exn_str FileNotFoundError +:+ "[/bold red]")]).
Proof.
  intros H. unfold guarded_menu_loop, try_except. cbn [menu_loop].
  rewrite (bind_raise _ _ _ _ _ H). cbn [main_handler is_Exception].
  unfold bind, log_error, print, emit, sys_exit, raise, advance.
  cbn [nruns stdin trace]. rewrite <- !app_assoc. reflexivity.
Qed.


End Program.

(** ** Runs on the sample worlds *)

(** The two cases of C8 on outputs [[]] and [oops]. *)
Lemma list_empty_and_malformed_witness :
  (list_repositories (always (Exited 0 "[]" "")) json_sample (start [])
   = (Ok tt, advance (start []) 1 []
        [Print (Py.NL +:+ "[bold]Fetching Repositories...[/bold]");
         Ran 0 repo_list_command true (Exited 0 "[]" "");
         Print "No repositories found."])
   /\ list_applications (always (Exited 0 "[]" "")) json_sample (start [])
   = (Ok tt, advance (start []) 1 []
        [Print (Py.NL +:+ "[bold]Fetching Applications...[/bold]");
         Ran 0 app_list_command true (Exited 0 "[]" "");
         Print "No applications found."]))
  /\ (list_repositories (always (Exited 0 "oops" "")) json_sample (start [])
   = (Ok tt, advance (start []) 1 []
        [Print (Py.NL +:+ "[bold]Fetching Repositories...[/bold]");
         Ran 0 repo_list_command true (Exited 0 "oops" "");
         Logged ERROR "Failed to parse JSON from argocd CLI output.";
         Print "[red]Error: Could not parse the data received from the ArgoCD CLI.[/red]"])
   /\ list_applications (always (Exited 0 "oops" "")) json_sample (start [])
   = (Ok tt, advance (start []) 1 []
        [Print (Py.NL +:+ "[bold]Fetching Applications...[/bold]");
         Ran 0 app_list_command true (Exited 0 "oops" "");
         Logged ERROR "Failed to parse JSON from argocd CLI output.";
         Print "[red]Error: Could not parse the data received from the ArgoCD CLI.[/red]"])).
Proof.
  split.
  - apply (proj1 (list_empty_and_malformed (always (Exited 0 "[]" "")) json_sample
                    (start []) "[]" "" eq_refl eq_refl)).
    reflexivity.
  - apply (proj2 (list_empty_and_malformed (always (Exited 0 "oops" "")) json_sample
                    (start []) "oops" "" eq_refl eq_refl)).
    reflexivity.
Defined.






(** C6 on a turn of the menu before login: the user types 7, which is not
    offered, and then 3. *)
Lemma menu_is_live_witness :
  (choose_action (always (Exited 0 "ok" "")) json_sample false (start ["7"; "3"])).1
  = Ok (Some (Text "login_retry"))
  /\ sorted_menu_items (always (Exited 0 "ok" "")) json_sample false
     = ["Check ArgoCD Installation Status"; "Install ArgoCD";
        "Login to ArgoCD"; "Uninstall ArgoCD"]
  /\ length (valid_choices
               (sorted_menu_items (always (Exited 0 "ok" "")) json_sample false))
     = size (setup_options (always (Exited 0 "ok" ""))) + 1 + 1
  /\ exists label,
       label ∈ sorted_menu_items (always (Exited 0 "ok" "")) json_sample false
       /\ current_menu_text (always (Exited 0 "ok" "")) json_sample false !! label
          = Some (Text "login_retry").
Proof.
  destruct (menu_is_live env_none (always (Exited 0 "ok" "")) json_sample false
              (start ["7"; "3"]) (Ok (Some (Text "login_retry")))
              (choose_action (always (Exited 0 "ok" "")) json_sample false
                 (start ["7"; "3"])).2)
    as (_ & _ & _ & Hcount & _ & Hsel).
  { vm_compute. reflexivity. }
  split; [vm_compute; reflexivity|].
  split; [vm_compute; reflexivity|].
  split; [exact Hcount|].
  exact (Hsel _ eq_refl).
Defined.

(** C7 on a startup login that succeeds, and on a turn of the menu in which
    the user, not logged in, chooses the retry entry and logs in. *)
Lemma authenticated_only_after_login_witness :
  login_succeeded_last
    (trace (login_to_argocd env_host_only (always (Exited 0 "ok" ""))
              (start [""; "admin"; "secret"])).2)
  /\ login_succeeded_last
       (trace (menu_iteration (always (Exited 0 "ok" "")) json_sample false
                 (start ["3"; "h"; ""; "u"; "p"; ""])).2).
Proof.
  destruct (authenticated_only_after_login env_host_only
              (always (Exited 0 "ok" "")) json_sample
              (start [""; "admin"; "secret"])
              (login_to_argocd env_host_only (always (Exited 0 "ok" ""))
                 (start [""; "admin"; "secret"])).2
              true false true
              (start ["3"; "h"; ""; "u"; "p"; ""])
              (menu_iteration (always (Exited 0 "ok" "")) json_sample false
                 (start ["3"; "h"; ""; "u"; "p"; ""])).2)
    as (Hstart & _ & Hturn).
  { vm_compute. reflexivity. }
  { vm_compute. reflexivity. }
  split; [exact (Hstart eq_refl) | exact (Hturn eq_refl eq_refl)].
Defined.





(** The whole program on that input: the login succeeds, the executable is
    removed, the user asks for the repositories, and the process exits with
    status 1. *)
Lemma main_exits_when_argocd_is_removed :
  (main env_host_only removed_after_first json_sample exn_name
     (start [""; "admin"; "secret"; "9"])).1 = Raise (SystemExit 1).
Proof. vm_compute. reflexivity. Qed.
